(** * Verification of the marketing storyline pipeline (marketing_storyline)

    Shallow embedding of the parts of the Python sources that the
    specification talks about:
    - [app/story_generator.py]: [_post_process_storyline],
      [_apply_length_constraints], [generate_storyline];
    - [app/feature_extractor.py]: [extract_features],
      [_deduplicate_features], [_names_similar], [_rank_features];
    - [marketing_generator.py]: [_generate_once], [generate_storyline];
    - [description.py]: the parsing half of [generate_scenes].

    Python strings are modelled as [String.string] over ASCII; Python
    exceptions as [None] (or an explicit error constructor where the
    exception class matters). *)

From Stdlib Require Import String Ascii List ZArith QArith Lia Bool.
From Stdlib Require Import Sorting.Sorted Sorting.Permutation.
Import ListNotations.
Open Scope string_scope.

(* ------------------------------------------------------------------ *)
(** ** Python string primitives *)

Module Py.

(** [str.isspace] on ASCII: \t \n \x0b \x0c \r, the separators
    \x1c..\x1f, and the space. *)
Definition is_space (c : ascii) : bool :=
  let n := nat_of_ascii c in
  ((9 <=? n) && (n <=? 13))%nat || ((28 <=? n) && (n <=? 32))%nat.

Definition is_emptyb (s : string) : bool :=
  match s with EmptyString => true | _ => false end.

(** [str.split()] without arguments: maximal runs of non-space characters. *)
Fixpoint split_go (s cur : string) : list string :=
  match s with
  | EmptyString => if is_emptyb cur then [] else [cur]
  | String c r =>
      if is_space c
      then (if is_emptyb cur then split_go r EmptyString
            else cur :: split_go r EmptyString)
      else split_go r (cur ++ String c EmptyString)
  end.

Definition split (s : string) : list string := split_go s EmptyString.

(** [sep.join(xs)] *)
Fixpoint join (sep : string) (xs : list string) : string :=
  match xs with
  | [] => EmptyString
  | [x] => x
  | x :: rest => x ++ sep ++ join sep rest
  end.

(** [s[:n]] *)
Definition take (n : nat) (s : string) : string := substring 0 n s.

Fixpoint lstrip (s : string) : string :=
  match s with
  | EmptyString => EmptyString
  | String c r => if is_space c then lstrip r else s
  end.

Definition rev_string (s : string) : string :=
  string_of_list_ascii (rev (list_ascii_of_string s)).

(** [str.strip()] *)
Definition strip (s : string) : string :=
  rev_string (lstrip (rev_string (lstrip s))).

(** [str.lower()] on ASCII. *)
Definition lower_char (c : ascii) : ascii :=
  let n := nat_of_ascii c in
  if ((65 <=? n) && (n <=? 90))%nat then ascii_of_nat (n + 32) else c.

Fixpoint lower (s : string) : string :=
  match s with
  | EmptyString => EmptyString
  | String c r => String (lower_char c) (lower r)
  end.

(** [all(p(c) for c in s)] *)
Fixpoint all_chars (p : ascii -> bool) (s : string) : bool :=
  match s with
  | EmptyString => true
  | String c r => p c && all_chars p r
  end.

(** An item of [str.split()]: a nonempty run of non-space characters. *)
Definition word (w : string) : Prop :=
  w <> EmptyString /\ all_chars (fun c => negb (is_space c)) w = true.

End Py.

(* ------------------------------------------------------------------ *)
(** ** JSON values as returned by [json.loads] *)

Set Warnings "-register-all".

(** Numbers are kept as integers: the normalizer only looks at their
    truthiness ([0] is falsy). Objects are association lists. *)
Inductive json : Type :=
| JNull
| JBool (b : bool)
| JNum (n : Z)
| JStr (s : string)
| JArr (xs : list json)
| JObj (kvs : list (string * json)).

(** Python truthiness, [bool(v)]. *)
Definition truthy (v : json) : bool :=
  match v with
  | JNull => false
  | JBool b => b
  | JNum n => negb (Z.eqb n 0)
  | JStr s => negb (Py.is_emptyb s)
  | JArr xs => negb (match xs with [] => true | _ => false end)
  | JObj kvs => negb (match kvs with [] => true | _ => false end)
  end.

(** [len(v)]; [None] is the [TypeError] raised on numbers, booleans and None. *)
Definition py_len (v : json) : option nat :=
  match v with
  | JStr s => Some (String.length s)
  | JArr xs => Some (List.length xs)
  | JObj kvs => Some (List.length kvs)
  | _ => None
  end.

(** A Python [dict] with string keys: lookup finds the key, assignment
    overwrites it in place or appends it at the end. *)
Definition dict := list (string * json).

Fixpoint dict_get (d : dict) (k : string) : option json :=
  match d with
  | [] => None
  | (k', v) :: rest => if String.eqb k' k then Some v else dict_get rest k
  end.

Fixpoint dict_set (d : dict) (k : string) (v : json) : dict :=
  match d with
  | [] => [(k, v)]
  | (k', v') :: rest =>
      if String.eqb k' k then (k', v) :: rest else (k', v') :: dict_set rest k v
  end.

(** [d.get(k, dflt)] *)
Definition dict_get_or (d : dict) (k : string) (dflt : json) : json :=
  match dict_get d k with Some v => v | None => dflt end.

(* ------------------------------------------------------------------ *)
(** ** [StoryGenerator._post_process_storyline] *)

Module Story.

Definition defaults : list (string * json) :=
  [ ("headline", JStr "Discover Your Perfect Solution");
    ("subhead", JStr "Transform your experience with our innovative product");
    ("hero_paragraph", JStr "Our product solves your challenges with innovative features designed for your success.");
    ("bulleted_features", JArr [JStr "Key benefit 1"; JStr "Key benefit 2"; JStr "Key benefit 3"]);
    ("persona", JStr "Target customers who value quality and innovation");
    ("use_cases", JArr [JStr "Primary use case"; JStr "Secondary use case"]);
    ("ctas", JArr [JStr "Get Started Today"; JStr "Learn More"]);
    ("email_subject", JStr "Transform your experience today");
    ("email_body", JStr "Discover how our innovative solution can transform your experience.");
    ("social_posts", JArr [JStr "Great solution for your needs!"; JStr "Transform your workflow with innovation."]) ].

(** [if key not in storyline_data or not storyline_data[key]:
       storyline_data[key] = default_value] *)
Definition apply_default (d : dict) (kd : string * json) : dict :=
  let (k, dv) := kd in
  match dict_get d k with
  | Some v => if truthy v then d else dict_set d k dv
  | None => dict_set d k dv
  end.

Definition apply_defaults (d : dict) : dict := fold_left apply_default defaults d.

(** [_apply_length_constraints]; [None] is an exception ([TypeError] on
    [len] or on [list + str], [AttributeError] on [.split()]). *)
Definition apply_length_constraints (d : dict) (length : string) : option dict :=
  if String.eqb length "short" then
    let hv := dict_get_or d "headline" (JStr "") in
    match py_len hv with
    | None => None
    | Some l =>
        let d1 :=
          if (60 <? l)%nat then
            match hv with
            | JStr s => Some (dict_set d "headline" (JStr (Py.take 60 s ++ "...")))
            | _ => None
            end
          else Some d in
        match d1 with
        | None => None
        | Some d1 =>
            match dict_get_or d1 "hero_paragraph" (JStr "") with
            | JStr hero =>
                let hero_words := Py.split hero in
                if (100 <? List.length hero_words)%nat
                then Some (dict_set d1 "hero_paragraph"
                             (JStr (Py.join " " (firstn 100 hero_words) ++ "...")))
                else Some d1
            | _ => None
            end
        end
    end
  else if String.eqb length "long" then
    (* the word count is computed and then ignored *)
    match dict_get_or d "hero_paragraph" (JStr "") with
    | JStr _ => Some d
    | _ => None
    end
  else Some d.

(** [if len(storyline_data[key]) < n: storyline_data[key].extend([filler ...])];
    [KeyError], [TypeError] and the missing [extend] of [str] and [dict] are [None]. *)
Definition pad_list (d : dict) (k : string) (n : nat) (filler : string) : option dict :=
  match dict_get d k with
  | None => None
  | Some v =>
      match py_len v with
      | None => None
      | Some l =>
          if (l <? n)%nat then
            match v with
            | JArr xs => Some (dict_set d k (JArr (xs ++ repeat (JStr filler) (n - l))))
            | _ => None
            end
          else Some d
      end
  end.

Definition bind {A B} (o : option A) (f : A -> option B) : option B :=
  match o with Some a => f a | None => None end.

Notation "x <- o ;; f" := (bind o (fun x => f)) (at level 61, o at next level, right associativity).

Definition post_process_storyline (d : dict) (tone length : string) : option dict :=
  let d := apply_defaults d in
  d <- apply_length_constraints d length ;;
  d <- pad_list d "bulleted_features" 3 "Additional benefit" ;;
  d <- pad_list d "use_cases" 2 "Additional use case" ;;
  d <- pad_list d "ctas" 2 "Take Action" ;;
  pad_list d "social_posts" 2 "Check out this amazing product!".

Definition text_keys : list string :=
  ["headline"; "subhead"; "hero_paragraph"; "persona"; "email_subject"; "email_body"].

Definition list_mins : list (string * nat) :=
  [("bulleted_features", 3%nat); ("use_cases", 2%nat); ("ctas", 2%nat); ("social_posts", 2%nat)].

(** The package invariant of the spec, as a decidable check. *)
Definition text_okb (d : dict) (k : string) : bool :=
  match dict_get d k with Some (JStr s) => negb (Py.is_emptyb s) | _ => false end.

Definition list_okb (d : dict) (kn : string * nat) : bool :=
  match dict_get d (fst kn) with
  | Some (JArr xs) => (snd kn <=? List.length xs)%nat
  | _ => false
  end.

Definition package_okb (d : dict) : bool :=
  forallb (text_okb d) text_keys && forallb (list_okb d) list_mins.

(** Every field present in the parsed record is falsy or has its schema type. *)
Definition is_str (v : json) : bool := match v with JStr _ => true | _ => false end.
Definition is_arr (v : json) : bool := match v with JArr _ => true | _ => false end.

Definition field_typedb (d : dict) (k : string) (ty : json -> bool) : bool :=
  match dict_get d k with
  | None => true
  | Some v => negb (truthy v) || ty v
  end.

Definition input_typedb (d : dict) : bool :=
  forallb (fun k => field_typedb d k is_str) text_keys
  && forallb (fun kn => field_typedb d (fst kn) is_arr) list_mins.

(** The value a required field has after the defaulting loop. *)
Definition defaulted (o : option json) (dv : json) : json :=
  match o with Some v => if truthy v then v else dv | None => dv end.

Definition text_inv (d : dict) : Prop :=
  forall k, In k text_keys -> exists s, dict_get d k = Some (JStr s) /\ s <> EmptyString.

Definition arr_inv (d : dict) (k : string) (n : nat) : Prop :=
  exists xs, dict_get d k = Some (JArr xs) /\ (n <= List.length xs)%nat.

(** A reply whose headline is longer than the short tier allows. *)
Definition stable_demo_input : dict :=
  [("headline", JStr "An insulated smart water bottle that tracks every sip you take all day long")].

(** Every key of [defaults] is present with a truthy value, so the
    defaulting loop changes nothing. *)
Definition all_truthy (d : dict) : Prop :=
  forall k, In k (map fst defaults) -> exists v, dict_get d k = Some v /\ truthy v = true.

End Story.
(* ------------------------------------------------------------------ *)
(** ** [FeatureExtractor]: deduplication and ranking *)

Module Feat.

(** [schemas.FeatureType] *)
Inductive feature_type : Type := Benefit | Spec | UseCase | Audience.

(** [schemas.MarketingFeature]; [confidence] is a rational in [0, 1]. *)
Record feature : Type := mkFeature {
  f_id : string;
  f_name : string;
  f_type : feature_type;
  importance_rank : Z;
  confidence : Q;
  example_phrase : string
}.

Definition mem (w : string) (ws : list string) : bool :=
  existsb (String.eqb w) ws.

(** [set(name.split())] *)
Definition word_set (name : string) : list string :=
  nodup string_dec (Py.split name).

Definition set_inter (a b : list string) : list string := filter (fun w => mem w b) a.
Definition set_union (a b : list string) : list string := nodup string_dec (a ++ b).

Definition is_nil {A} (l : list A) : bool := match l with [] => true | _ => false end.

(** [_names_similar(name1, name2, threshold)]. The Python quotient is a
    float; for word counts of realistic size its rounding cannot move it
    across the threshold, so the exact rational [overlap / union] is used. *)
Definition names_similar_t (threshold : Q) (name1 name2 : string) : bool :=
  let words1 := word_set name1 in
  let words2 := word_set name2 in
  if is_nil words1 || is_nil words2 then false
  else
    let overlap := List.length (set_inter words1 words2) in
    let union := List.length (set_union words1 words2) in
    let similarity :=
      if (0 <? union)%nat then Z.of_nat overlap # Pos.of_nat union else 0%Q in
    Qle_bool threshold similarity.

Definition names_similar : string -> string -> bool := names_similar_t (4 # 5).

(** [feature.name.lower().strip()] *)
Definition normalized_name (f : feature) : string := Py.strip (Py.lower (f_name f)).

(** The loop of [_deduplicate_features]; [seen] plays [seen_names]. *)
Fixpoint dedupe_go (seen : list string) (fs : list feature) : list feature :=
  match fs with
  | [] => []
  | f :: rest =>
      let nn := normalized_name f in
      if existsb (fun s => names_similar nn s) seen
      then dedupe_go seen rest
      else f :: dedupe_go (nn :: seen) rest
  end.

Definition deduplicate_features (fs : list feature) : list feature := dedupe_go [] fs.

(** [key=lambda f: (f.importance_rank, -f.confidence)] and Python's tuple [<]. *)
Definition Qltb (a b : Q) : bool := negb (Qle_bool b a).

Definition key_lt (f g : feature) : bool :=
  let '(r1, q1) := (importance_rank f, Qopp (confidence f)) in
  let '(r2, q2) := (importance_rank g, Qopp (confidence g)) in
  (r1 <? r2)%Z || ((r1 =? r2)%Z && Qltb q1 q2).

(** [list.sort] is stable; a stable insertion sort gives the same list. *)
Fixpoint insert (x : feature) (l : list feature) : list feature :=
  match l with
  | [] => [x]
  | y :: l' => if key_lt y x then y :: insert x l' else x :: y :: l'
  end.

Fixpoint sort (l : list feature) : list feature :=
  match l with
  | [] => []
  | x :: l' => insert x (sort l')
  end.

Definition set_rank (f : feature) (r : Z) : feature :=
  mkFeature (f_id f) (f_name f) (f_type f) r (confidence f) (example_phrase f).

(** [for idx, feature in enumerate(features): feature.importance_rank = idx + 1] *)
Fixpoint renumber (i : Z) (fs : list feature) : list feature :=
  match fs with
  | [] => []
  | f :: rest => set_rank f i :: renumber (i + 1) rest
  end.

Definition rank_features (fs : list feature) : list feature := renumber 1 (sort fs).

(** The spec's order: rank ascending, then confidence descending. *)
Definition rank_conf_le (f g : feature) : Prop :=
  (importance_rank f < importance_rank g)%Z \/
  (importance_rank f = importance_rank g /\ (confidence g <= confidence f)%Q).

(** Already ranked: ranks are [1..N] in list order. *)
Definition ranked (fs : list feature) : Prop :=
  map importance_rank fs = map Z.of_nat (seq 1 (List.length fs)).

(** Already deduplicated: no feature's normalized name is similar to the
    normalized name of a feature before it. *)
Definition deduplicated (fs : list feature) : Prop :=
  forall pre f post g, fs = (pre ++ f :: post)%list -> In g pre ->
    names_similar (normalized_name f) (normalized_name g) = false.

End Feat.

(* ------------------------------------------------------------------ *)
(** ** [marketing_generator.RobustMarketingGenerator] (Ollama variant) *)

Module Ollama.

(** [str.splitlines()] on ASCII: \n, \r, \r\n, \x0b, \x0c, \x1c, \x1d, \x1e
    end a line; a final line break does not open an empty line. *)
Definition is_linebreak (c : ascii) : bool :=
  let n := nat_of_ascii c in
  ((10 <=? n) && (n <=? 12))%nat || ((28 <=? n) && (n <=? 30))%nat.

Fixpoint splitlines_go (s cur : string) : list string :=
  match s with
  | EmptyString => if Py.is_emptyb cur then [] else [cur]
  | String c r =>
      if (nat_of_ascii c =? 13)%nat then
        match r with
        | String c2 r2 =>
            if (nat_of_ascii c2 =? 10)%nat then cur :: splitlines_go r2 EmptyString
            else cur :: splitlines_go r EmptyString
        | EmptyString => [cur]
        end
      else if is_linebreak c then cur :: splitlines_go r EmptyString
      else splitlines_go r (cur ++ String c EmptyString)
  end.

Definition splitlines (s : string) : list string := splitlines_go s EmptyString.

(** [s[n:]] *)
Definition drop (n : nat) (s : string) : string := substring n (String.length s - n) s.

(** Decimal rendering of a status code, for [f"API error {r.status_code}"]. *)
Fixpoint digits_go (fuel n : nat) (acc : string) : string :=
  match fuel with
  | O => acc
  | S fuel' =>
      let acc' := String (ascii_of_nat (48 + n mod 10)) acc in
      if (n <? 10)%nat then acc' else digits_go fuel' (n / 10) acc'
  end.

Definition show_Z (z : Z) : string :=
  if (z <? 0)%Z then "-" ++ digits_go (S (Z.to_nat (- z))) (Z.to_nat (- z)) EmptyString
  else digits_go (S (Z.to_nat z)) (Z.to_nat z) EmptyString.

Definition build_prompt (product_input : string) : string :=
  "You are a creative marketing expert. Based on the following product details, create:

1. A short tagline (10–15 words maximum)
2. A full marketing narrative (100–150 words)

Product Details: " ++ product_input ++ "

Format your response exactly as:
TAGLINE: <tagline>
NARRATIVE: <narrative>
".

(** What [requests.post(.../api/generate)] yields: a status code and the
    ["response"] field of the JSON body ([data.get("response", "") or ""]),
    or a [RequestException]. *)
Inductive http_response : Type :=
| Response (status_code : Z) (content : string)
| RequestError (msg : string).

(** The dictionaries returned by [_generate_once] and [generate_storyline]. *)
Inductive gen_result : Type :=
| GenOk (tagline narrative model : string)
| GenFail (error : string) (status : option Z).

Definition success (r : gen_result) : bool :=
  match r with GenOk _ _ _ => true | GenFail _ _ => false end.

Definition status (r : gen_result) : option Z :=
  match r with GenOk _ _ _ => None | GenFail _ st => st end.

(** The labelled-line scan: the last [TAGLINE:] and [NARRATIVE:] lines win. *)
Definition scan_line (acc : string * string) (line : string) : string * string :=
  let line := Py.strip line in
  if String.prefix "TAGLINE:" line then (Py.strip (drop 8 line), snd acc)
  else if String.prefix "NARRATIVE:" line then (fst acc, Py.strip (drop 10 line))
  else acc.

Definition parse_content (content : string) : string * string :=
  let '(tagline, narrative) := fold_left scan_line (splitlines content) ("", "") in
  if Py.is_emptyb tagline || Py.is_emptyb narrative then
    let lines := filter (fun ln => negb (Py.is_emptyb ln)) (map Py.strip (splitlines content)) in
    match lines with
    | [] => (tagline, narrative)
    | l0 :: rest =>
        (if Py.is_emptyb tagline then Py.take 120 l0 else tagline,
         if Py.is_emptyb narrative then Py.take 1500 (Py.join " " rest) else narrative)
    end
  else (tagline, narrative).

(** "Enforce lengths" *)
Definition enforce_tagline (tagline : string) : string :=
  let tagline_words := Py.split tagline in
  let tagline :=
    if (15 <? List.length tagline_words)%nat
    then Py.join " " (firstn 15 tagline_words) else tagline in
  if (List.length tagline_words <? 10)%nat
  then Py.strip (Py.take 120 (Py.join " "
         (tagline_words ++ repeat "" (10 - List.length tagline_words))%list))
  else tagline.

Definition enforce_narrative (narrative : string) : string :=
  let narrative_words := Py.split narrative in
  if (150 <? List.length narrative_words)%nat
  then Py.join " " (firstn 150 narrative_words)
  else if (List.length narrative_words <? 100)%nat
  then Py.strip (Py.join " "
         (narrative_words ++ repeat "" (100 - List.length narrative_words))%list)
  else narrative.

(** [_generate_once]; [backend] is the Ollama server, answering a model
    name and a prompt. *)
Definition generate_once (backend : string -> string -> http_response)
    (product_input model_name : string) : gen_result :=
  match backend model_name (build_prompt product_input) with
  | RequestError e => GenFail ("API request failed: " ++ e) None
  | Response code content =>
      if negb (code =? 200)%Z then GenFail ("API error " ++ show_Z code) (Some code)
      else
        let '(tagline, narrative) := parse_content content in
        GenOk (enforce_tagline tagline) (enforce_narrative narrative) model_name
  end.

(** The retry loop of [generate_storyline]. *)
Fixpoint try_models (backend : string -> string -> http_response)
    (product_input : string) (models : list string) : gen_result :=
  match models with
  | [] => GenFail "All generation attempts failed with available models." None
  | model :: rest =>
      let res := generate_once backend product_input model in
      if success res then res
      else if match status res with Some st => (st =? 500)%Z | None => false end
      then try_models backend product_input rest   (* continue: try next model *)
      else try_models backend product_input rest   (* end of the loop body *)
  end.

(** [generate_storyline]; [service_up] is [check_ollama_service()] and
    [try_order] is [_resolve_models()]. *)
Definition generate_storyline (backend : string -> string -> http_response)
    (service_up : bool) (try_order : list string) (product_input : string) : gen_result :=
  if negb service_up
  then GenFail "Ollama service not running. Start it and retry." None
  else match try_order with
       | [] => GenFail "No local models available. Pull a model (e.g., 'ollama pull llama3.2:1b')." None
       | _ => try_models backend product_input try_order
       end.

End Ollama.

(* ------------------------------------------------------------------ *)
(** ** Pipelines of [FeatureExtractor.extract_features] and
       [StoryGenerator.generate_storyline], with their caches *)

Module Pipeline.
Import Feat.

Inductive exn : Type :=
| ValueError (msg : string)
| LLMError (msg : string)
| OtherError (msg : string).

Inductive result (A : Type) : Type :=
| Ok (a : A)
| Raise (e : exn).
Arguments Ok {A} a.
Arguments Raise {A} e.

Definition bindR {A B} (r : result A) (f : A -> result B) : result B :=
  match r with Ok a => f a | Raise e => Raise e end.

Definition is_value_error {A} (r : result A) : bool :=
  match r with Raise (ValueError _) => true | _ => false end.

Definition is_raise {A} (r : result A) : bool :=
  match r with Raise _ => true | Ok _ => false end.

(** [except LLMError: raise] / [except Exception as e: raise LLMError(...)] *)
Definition reraise (what : string) (e : exn) : exn :=
  match e with
  | LLMError m => LLMError m
  | ValueError m | OtherError m => LLMError (what ++ m)
  end.

(** A [TTLCache] as its list of entries; [None] is a disabled cache
    ([self.cache = None]). *)
Definition store (V : Type) := list (string * V).

Fixpoint store_get {V} (c : store V) (k : string) : option V :=
  match c with
  | [] => None
  | (k', v) :: rest => if String.eqb k' k then Some v else store_get rest k
  end.

(** [bool(self.cache)]: a [TTLCache] is a mapping, false when it is empty. *)
Definition cache_truthy {V} (c : option (store V)) : bool :=
  match c with Some (_ :: _) => true | _ => false end.

(** [if self.cache and cache_key in self.cache: return self.cache[cache_key]] *)
Definition cache_hit {V} (c : option (store V)) (k : string) : option V :=
  if cache_truthy c then match c with Some st => store_get st k | None => None end
  else None.

(** The collaborators the two services call: the prompt templates, the
    LLM client, the pydantic constructors, the md5 cache keys and the
    [TTLCache] insertion (with its eviction).  A cache key is
    [hashlib.md5(content.encode()).hexdigest()]; [content.encode()] raises
    [UnicodeEncodeError] (a [ValueError]) when the text holds a lone
    surrogate such as ["\ud800"], which a JSON request body can carry.  The
    strings of this model are ASCII and cannot show such a character, so the
    outcome of the encoding belongs to the collaborator: [None] is that
    error, [Some k] the hex digest. *)
Record collab (Resp SR : Type) : Type := {
  feature_prompt : string -> Z -> string;
  storyline_prompt : string -> list feature -> string -> string -> option string -> string;
  chat_completion : list (string * string) -> Q -> Z -> result Resp;
  extract_json_response : Resp -> result json;
  to_feature : nat -> dict -> option feature;
  to_storyline : dict -> option SR;
  feature_cache_key : string -> Z -> option string;
  story_cache_key : string -> list feature -> string -> string -> option string -> option string;
  feature_cache_set : string -> list feature -> store (list feature) -> store (list feature);
  story_cache_set : string -> SR -> store SR -> store SR
}.
Arguments feature_prompt {Resp SR} c.
Arguments storyline_prompt {Resp SR} c.
Arguments chat_completion {Resp SR} c.
Arguments extract_json_response {Resp SR} c.
Arguments to_feature {Resp SR} c.
Arguments to_storyline {Resp SR} c.
Arguments feature_cache_key {Resp SR} c.
Arguments story_cache_key {Resp SR} c.
Arguments feature_cache_set {Resp SR} c.
Arguments story_cache_set {Resp SR} c.

Section Services.
Context {Resp SR : Type} (E : collab Resp SR).

Definition write_cache {V} (set : string -> V -> store V -> store V)
    (c : option (store V)) (k : string) (v : V) : option (store V) :=
  if cache_truthy c then match c with Some st => Some (set k v st) | None => None end
  else c.

(** [features_data[:max_features]]: a list or a string slices (a string
    slices into one-character strings), anything else raises. *)
Definition slice_items (data : json) (n : nat) : option (list json) :=
  match data with
  | JArr xs => Some (firstn n xs)
  | JStr s => Some (firstn n (map (fun c => JStr (String c EmptyString)) (list_ascii_of_string s)))
  | _ => None
  end.

(** The conversion loop: an item that is not a dict, or that pydantic
    rejects, is skipped. *)
Fixpoint convert_items (idx : nat) (items : list json) : list feature :=
  match items with
  | [] => []
  | item :: rest =>
      match item with
      | JObj kvs =>
          match to_feature E idx kvs with
          | Some f => f :: convert_items (S idx) rest
          | None => convert_items (S idx) rest
          end
      | _ => convert_items (S idx) rest
      end
  end.

Definition extraction_try (product_prompt : string) (max_features : Z) : result (list feature) :=
  let prompt := feature_prompt E product_prompt max_features in
  let messages := [("system", "You are an expert marketing analyst. Always return valid JSON.");
                   ("user", prompt)] in
  bindR (chat_completion E messages (3 # 10) 2000) (fun response =>
  bindR (extract_json_response E response) (fun features_data =>
  match slice_items features_data (Z.to_nat max_features) with
  | None => Raise (OtherError "TypeError")
  | Some items => Ok (rank_features (deduplicate_features (convert_items 0 items)))
  end)).

(** The message of the [UnicodeEncodeError] raised by [content.encode()]
    in [_generate_cache_key], before the [try] of both services. *)
Definition is_none {A} (o : option A) : bool :=
  match o with None => true | Some _ => false end.

Definition encode_error_msg : string :=
  "'utf-8' codec can't encode character: surrogates not allowed".

Definition extract_features (cache : option (store (list feature)))
    (product_prompt : string) (max_features : Z)
    : result (list feature) * option (store (list feature)) :=
  if Py.is_emptyb (Py.strip product_prompt)
  then (Raise (ValueError "Product prompt cannot be empty"), cache)
  else if (max_features <? 1)%Z || (50 <? max_features)%Z
  then (Raise (ValueError "max_features must be between 1 and 50"), cache)
  else
    match feature_cache_key E product_prompt max_features with
    | None => (Raise (ValueError encode_error_msg), cache)
    | Some cache_key =>
    match cache_hit cache cache_key with
    | Some v => (Ok v, cache)
    | None =>
        match extraction_try product_prompt max_features with
        | Raise e => (Raise (reraise "Feature extraction failed: " e), cache)
        | Ok features =>
            (Ok features, write_cache (feature_cache_set E) cache cache_key features)
        end
    end
    end.

Definition storyline_try (product_prompt : string) (features : list feature)
    (tone length : string) (audience : option string) : result SR :=
  let prompt := storyline_prompt E product_prompt features tone length audience in
  let messages := [("system", "You are an expert marketing copywriter specializing in "
                              ++ tone ++ " content. Always return valid JSON.");
                   ("user", prompt)] in
  bindR (chat_completion E messages (8 # 10) 3000) (fun response =>
  bindR (extract_json_response E response) (fun storyline_data =>
  match storyline_data with
  | JObj kvs =>
      match Story.post_process_storyline kvs tone length with
      | None => Raise (OtherError "post-processing failed")
      | Some d =>
          match to_storyline E d with
          | None => Raise (OtherError "validation error")
          | Some storyline => Ok storyline
          end
      end
  | _ => Raise (OtherError "TypeError")
  end)).

Definition generate_storyline (cache : option (store SR)) (product_prompt : string)
    (features : list feature) (tone length : string) (audience : option string)
    : result SR * option (store SR) :=
  if Py.is_emptyb (Py.strip product_prompt)
  then (Raise (ValueError "Product prompt cannot be empty"), cache)
  else if is_nil features
  then (Raise (ValueError "At least one feature must be provided"), cache)
  else
    match story_cache_key E product_prompt features tone length audience with
    | None => (Raise (ValueError encode_error_msg), cache)
    | Some cache_key =>
    match cache_hit cache cache_key with
    | Some v => (Ok v, cache)
    | None =>
        match storyline_try product_prompt features tone length audience with
        | Raise e => (Raise (reraise "Storyline generation failed: " e), cache)
        | Ok storyline =>
            (Ok storyline, write_cache (story_cache_set E) cache cache_key storyline)
        end
    end
    end.

End Services.
End Pipeline.

(* ------------------------------------------------------------------ *)
(** ** description.py: [SceneGenerator.generate_scenes], reply parsing

    After the HTTP call, [generate_scenes] slices the reply text from
    its first ["{"] to its last ["}"] and hands the slice to
    [json.loads]. The JSON decoder is not re-implemented: [parse_scenes]
    takes it as a parameter [loads], with [None] for a
    [JSONDecodeError]. *)

Module Scenes.
Local Open Scope nat_scope.

(** [str.find(c)] for a one-character needle; [None] is Python's [-1]. *)
Fixpoint find_char (c : ascii) (s : string) : option nat :=
  match s with
  | EmptyString => None
  | String a r =>
      if Ascii.eqb a c then Some 0
      else match find_char c r with Some n => Some (S n) | None => None end
  end.

(** [str.rfind(c)] for a one-character needle. *)
Fixpoint rfind_char (c : ascii) (s : string) : option nat :=
  match s with
  | EmptyString => None
  | String a r =>
      match rfind_char c r with
      | Some n => Some (S n)
      | None => if Ascii.eqb a c then Some 0 else None
      end
  end.

(** [start, end = text.find("{"), text.rfind("}")];
    [if start != -1 and end != -1 and end > start: text = text[start:end + 1]] *)
Definition extract_block (text : string) : string :=
  match find_char "{"%char text, rfind_char "}"%char text with
  | Some start, Some end_ =>
      if Nat.ltb start end_ then substring start (end_ + 1 - start) text else text
  | _, _ => text
  end.

(** [scene_data = json.loads(text)]; the scenes are returned when
    [isinstance(scene_data, dict)] and
    [isinstance(scene_data.get("scenes"), list)], [None] otherwise. *)
Definition parse_scenes (loads : string -> option json) (text : string)
  : option (list json) :=
  match loads (extract_block text) with
  | Some (JObj d) =>
      match dict_get d "scenes" with
      | Some (JArr xs) => Some xs
      | _ => None
      end
  | _ => None
  end.

Definition newline : string := String (ascii_of_nat 10) EmptyString.

(** A reply wrapped in a code fence with language tag [tag] (the empty
    string for a bare fence). *)
Definition fence (tag J : string) : string :=
  "```" ++ tag ++ newline ++ J ++ newline ++ "```".

Fixpoint has_char (c : ascii) (s : string) : bool :=
  match s with
  | EmptyString => false
  | String a r => Ascii.eqb a c || has_char c r
  end.

Definition no_brace (s : string) : bool :=
  negb (has_char "{"%char s) && negb (has_char "}"%char s).

Definition quote : string := String (ascii_of_nat 34) EmptyString.

(** The body of [{"scenes": ["Opening shot"]}] between its braces. *)
Definition scene_doc_body : string :=
  quote ++ "scenes" ++ quote ++ ": [" ++ quote ++ "Opening shot" ++ quote ++ "]".

(** A decoder that knows that one document. *)
Definition toy_loads (s : string) : option json :=
  if String.eqb s ("{" ++ scene_doc_body ++ "}")
  then Some (JObj [("scenes", JArr [JStr "Opening shot"])])
  else None.

End Scenes.

(* ------------------------------------------------------------------ *)
(** ** [marketing_generator.RobustMarketingGenerator._resolve_models] *)

Module Resolve.

Definition preferred_models : list string := ["llama2"; "llama3.2:1b"].

(** [for m in self.preferred_models:
       if m in local_models and m not in try_order: try_order.append(m)] *)
Definition add_preferred (local_models try_order : list string) (m : string) : list string :=
  if Feat.mem m local_models && negb (Feat.mem m try_order)
  then (try_order ++ [m])%list else try_order.

(** [for m in local_models: if m not in try_order: try_order.append(m)] *)
Definition add_local (try_order : list string) (m : string) : list string :=
  if negb (Feat.mem m try_order) then (try_order ++ [m])%list else try_order.

Definition build_try_order (local_models : list string) : list string :=
  fold_left add_local local_models
    (fold_left (add_preferred local_models) preferred_models []).

Section Resolve.
(** The Ollama server as a state [Srv]: [list_models] is the names the
    server lists ([[]] when the request fails, as in the source) and
    [pull_model] its answer to a pull request. *)
Context {Srv : Type} (list_models : Srv -> list string)
        (pull_model : string -> Srv -> bool * Srv).

(** The pull loop; [pulled] records the names passed to [pull_model]. *)
Fixpoint pull_loop (prefs local_models : list string) (s : Srv) (pulled : list string)
  : list string * Srv * list string :=
  match prefs with
  | [] => (local_models, s, pulled)
  | pref :: rest =>
      if negb (Feat.mem pref local_models) && String.eqb pref "llama3.2:1b" then
        let '(ok, s') := pull_model pref s in
        let pulled' := (pulled ++ [pref])%list in
        if ok then pull_loop rest (list_models s') s' pulled'   (* after time.sleep(2) *)
        else pull_loop rest local_models s' pulled'
      else pull_loop rest local_models s pulled
  end.

(** [_resolve_models()]: the try order and the pulls made. *)
Definition resolve_models (s : Srv) : list string * list string :=
  let '(local_models, _, pulled) := pull_loop preferred_models (list_models s) s [] in
  (build_try_order local_models, pulled).

End Resolve.
End Resolve.

(* ------------------------------------------------------------------ *)
(** ** [app/prompt_templates.py]: [PromptTemplates]

    [string.Template.substitute] inserts each value once, as it is. The
    template texts are written with [dq] for the double quote. *)

Module Templates.

Definition dq : string := String (ascii_of_nat 34) EmptyString.
Definition nl : string := String (ascii_of_nat 10) EmptyString.

Definition feature_extraction_template_0 : string :=
  "
You are an expert marketing analyst. Extract key marketing features from the following product description.

Product Description:
".
Definition feature_extraction_template_1 : string :=
  "

Instructions:
1. Identify marketing features that would be valuable for promoting this product
2. Classify each feature as: benefit, spec, use-case, or audience
3. Rank features by marketing importance (1 = most important)
4. Provide confidence score (0.0 to 1.0) for each extraction
5. Create an example marketing phrase for each feature
6. Return exactly ".
Definition feature_extraction_template_2 : string :=
  " features maximum
7. Ensure each feature has a unique ID (f1, f2, f3, etc.)

Return the results as a JSON array with this exact structure:
[
    {
        " ++ dq ++ "id" ++ dq ++ ": " ++ dq ++ "f1" ++ dq ++ ",
        " ++ dq ++ "name" ++ dq ++ ": " ++ dq ++ "Feature Name" ++ dq ++ ",
        " ++ dq ++ "type" ++ dq ++ ": " ++ dq ++ "benefit|spec|use-case|audience" ++ dq ++ ",
        " ++ dq ++ "importance_rank" ++ dq ++ ": 1,
        " ++ dq ++ "confidence" ++ dq ++ ": 0.95,
        " ++ dq ++ "example_phrase" ++ dq ++ ": " ++ dq ++ "Marketing phrase using this feature" ++ dq ++ "
    }
]

Focus on features that would be most compelling to potential customers and easiest to market effectively.
".

(** [get_feature_extraction_prompt]; [str(max_features)] is [show_Z]. *)
Definition get_feature_extraction_prompt (product_prompt : string) (max_features : Z) : string :=
  feature_extraction_template_0 ++ Py.strip product_prompt ++
  feature_extraction_template_1 ++ Ollama.show_Z max_features ++
  feature_extraction_template_2.

Definition storyline_template_0 : string :=
  "
You are an expert marketing copywriter. Create a comprehensive marketing storyline package for the following product.

Product Description:
".
Definition storyline_template_1 : string :=
  "

Key Features to Highlight:
".
Definition storyline_template_2 : string :=
  "

Marketing Parameters:
- Tone: ".
Definition storyline_template_3 : string :=
  "
- Content Length: ".
Definition storyline_template_4 : string :=
  "
- Target Audience: ".
Definition storyline_template_5 : string :=
  "

Instructions:
Create a complete marketing package that tells a compelling story following this narrative arc:
1. Problem identification (what challenge does this solve?)
2. Solution presentation (how does this product help?)
3. Value demonstration (why is this better?)
4. Social proof/examples (who would use this and how?)

Generate content with the specified tone (".
Definition storyline_template_6 : string :=
  ") and length (".
Definition storyline_template_7 : string :=
  "). 
".
Definition storyline_template_8 : string :=
  "
".
Definition storyline_template_9 : string :=
  "

Return the results as JSON with this exact structure:
{
    " ++ dq ++ "headline" ++ dq ++ ": " ++ dq ++ "Compelling main headline (under 80 characters)" ++ dq ++ ",
    " ++ dq ++ "subhead" ++ dq ++ ": " ++ dq ++ "Supporting subheadline that adds context" ++ dq ++ ",
    " ++ dq ++ "hero_paragraph" ++ dq ++ ": " ++ dq ++ "Hero section paragraph that tells the problem→solution→value story" ++ dq ++ ",
    " ++ dq ++ "bulleted_features" ++ dq ++ ": [" ++ dq ++ "Feature 1 as benefit statement" ++ dq ++ ", " ++ dq ++ "Feature 2 as benefit statement" ++ dq ++ ", " ++ dq ++ "Feature 3 as benefit statement" ++ dq ++ "],
    " ++ dq ++ "persona" ++ dq ++ ": " ++ dq ++ "Primary target customer persona description" ++ dq ++ ",
    " ++ dq ++ "use_cases" ++ dq ++ ": [" ++ dq ++ "Use case 1" ++ dq ++ ", " ++ dq ++ "Use case 2" ++ dq ++ ", " ++ dq ++ "Use case 3" ++ dq ++ "],
    " ++ dq ++ "ctas" ++ dq ++ ": [" ++ dq ++ "Primary CTA text" ++ dq ++ ", " ++ dq ++ "Secondary CTA text" ++ dq ++ "],
    " ++ dq ++ "email_subject" ++ dq ++ ": " ++ dq ++ "Email subject line (under 50 characters)" ++ dq ++ ",
    " ++ dq ++ "email_body" ++ dq ++ ": " ++ dq ++ "Email body text following the same narrative arc" ++ dq ++ ",
    " ++ dq ++ "social_posts" ++ dq ++ ": [" ++ dq ++ "Tweet-sized post (under 280 chars)" ++ dq ++ ", " ++ dq ++ "LinkedIn post (longer form)" ++ dq ++ "]
}

Make the content compelling, specific, and action-oriented. Focus on customer benefits rather than just features.
".

(** [LENGTH_GUIDANCE.get(length, LENGTH_GUIDANCE["medium"])] *)
Definition length_guidance (length : string) : string :=
  if String.eqb length "short" then "Keep all content concise and punchy. Headlines under 60 chars, paragraphs under 100 words."
  else if String.eqb length "long" then "Create detailed, comprehensive content. Headlines can be longer, paragraphs 200+ words with rich detail."
  else "Use moderate length content. Headlines 60-80 chars, paragraphs 100-200 words.".

(** [TONE_GUIDANCE.get(tone, TONE_GUIDANCE["friendly"])] *)
Definition tone_guidance (tone : string) : string :=
  if String.eqb tone "authoritative" then "Use professional, expert language. Focus on credibility, data, and proven results."
  else if String.eqb tone "playful" then "Use fun, creative language with personality. Include humor and engaging metaphors where appropriate."
  else if String.eqb tone "luxury" then "Use sophisticated, premium language. Focus on exclusivity, quality, and elevated experiences."
  else if String.eqb tone "casual" then "Use relaxed, informal language. Write as you would speak to a friend, avoiding jargon."
  else "Use warm, approachable language. Include conversational elements and focus on helpfulness.".

(** One line of [features_list]. [StoryGenerator.generate_storyline]
    passes dicts built from [MarketingFeature]s, which always have
    ["name"] and ["example_phrase"], so the [.get] defaults never apply. *)
Definition feature_line (f : Feat.feature) : string :=
  "- " ++ Feat.f_name f ++ ": " ++ Feat.example_phrase f.

(** [get_storyline_generation_prompt]; [audience or "general consumers"]. *)
Definition get_storyline_generation_prompt (product_prompt : string)
    (features : list Feat.feature) (tone length : string) (audience : option string)
    : string :=
  let features_list := Py.join nl (map feature_line features) in
  let audience := match audience with
                  | Some a => if Py.is_emptyb a then "general consumers" else a
                  | None => "general consumers"
                  end in
  storyline_template_0 ++ Py.strip product_prompt ++
  storyline_template_1 ++ features_list ++
  storyline_template_2 ++ tone ++
  storyline_template_3 ++ length ++
  storyline_template_4 ++ audience ++
  storyline_template_5 ++ tone ++
  storyline_template_6 ++ length ++
  storyline_template_7 ++ length_guidance length ++
  storyline_template_8 ++ tone_guidance tone ++
  storyline_template_9.

End Templates.

(* ------------------------------------------------------------------ *)
(** ** [app/llm_client.py]: [LLMClient.chat_completion] and [_mock_response]

    The settings are those of [app/config.py]; the HTTP exchange is a
    parameter [post] that answers the request's model and messages. *)

Module LLM.
Import Pipeline.

Record settings : Type := mkSettings {
  LLM_API_KEY : string;
  LLM_MODEL : string;
  LLM_TEMPERATURE : Q;
  LLM_MAX_TOKENS : Z;
  LLM_TOP_P : Q;
  LLM_PRESENCE_PENALTY : Q;
  LLM_FREQUENCY_PENALTY : Q
}.

(** [Settings()] with no environment overrides. *)
Definition default_settings : settings :=
  mkSettings "your-api-key-here" "gpt-3.5-turbo" (7 # 10) 1000 1 0 0.

(** Python's [needle in s] for strings. *)
Fixpoint contains (needle s : string) : bool :=
  String.prefix needle s ||
  match s with
  | EmptyString => false
  | String _ r => contains needle r
  end.

(** The two canned replies of [_mock_response]: the feature array and
    the storyline object. *)
Inductive mock_kind : Type := MockFeatures | MockStoryline.

(** [_mock_response(messages)]: looks at [messages[-1]["content"].lower()];
    [None] is the [IndexError] of an empty list. Messages are
    [(role, content)] pairs. *)
Definition mock_response (messages : list (string * string)) : option mock_kind :=
  match rev messages with
  | [] => None
  | (_, content) :: _ =>
      let last_message := Py.lower content in
      if contains "extract" last_message || contains "features" last_message
      then Some MockFeatures else Some MockStoryline
  end.

(** [LLMRequest(...)] on [request_data]: the bounds of [schemas.LLMRequest]. *)
Definition request_valid (temperature : Q) (max_tokens : Z)
    (top_p presence_penalty frequency_penalty : Q) : bool :=
  Qle_bool 0 temperature && Qle_bool temperature 2 &&
  (1 <=? max_tokens)%Z && (max_tokens <=? 4000)%Z &&
  Qle_bool 0 top_p && Qle_bool top_p 1 &&
  Qle_bool (-2) presence_penalty && Qle_bool presence_penalty 2 &&
  Qle_bool (-2) frequency_penalty && Qle_bool frequency_penalty 2.

(** What the [httpx] request produces: the decoded JSON body, a status
    that [raise_for_status] rejects, a timeout, or any other failure
    (connection error, undecodable body). *)
Inductive http_outcome : Type :=
| HttpJson (body : json)
| HttpStatus (code : Z) (text : string)
| HttpTimeout
| HttpOther (msg : string).

Inductive completion : Type :=
| MockReply (k : mock_kind)
| ApiReply (body : json).

Definition opt_or {A} (o : option A) (dflt : A) : A :=
  match o with Some a => a | None => dflt end.

Definition chat_completion (st : settings) (post : string -> list (string * string) -> http_outcome)
    (messages : list (string * string)) (model : option string)
    (temperature : option Q) (max_tokens : option Z)
    (top_p presence_penalty frequency_penalty : option Q) : result completion :=
  let model := match model with
               | Some m => if Py.is_emptyb m then LLM_MODEL st else m
               | None => LLM_MODEL st
               end in
  let temperature := opt_or temperature (LLM_TEMPERATURE st) in
  let max_tokens := opt_or max_tokens (LLM_MAX_TOKENS st) in
  let top_p := opt_or top_p (LLM_TOP_P st) in
  let presence_penalty := opt_or presence_penalty (LLM_PRESENCE_PENALTY st) in
  let frequency_penalty := opt_or frequency_penalty (LLM_FREQUENCY_PENALTY st) in
  if negb (request_valid temperature max_tokens top_p presence_penalty frequency_penalty)
  then Raise (LLMError "Invalid LLM request parameters")
  else if Py.is_emptyb (LLM_API_KEY st) || String.eqb (LLM_API_KEY st) "your-api-key-here"
  then match mock_response messages with
       | Some k => Ok (MockReply k)
       | None => Raise (OtherError "IndexError: list index out of range")
       end
  else match post model messages with
       | HttpJson body => Ok (ApiReply body)
       | HttpTimeout => Raise (LLMError "LLM API request timed out")
       | HttpStatus code text =>
           if (code =? 401)%Z then Raise (LLMError "Invalid API key or authentication failed")
           else if (code =? 429)%Z then Raise (LLMError "Rate limit exceeded")
           else Raise (LLMError ("LLM API error: " ++ Ollama.show_Z code ++ " - " ++ text))
       | HttpOther msg => Raise (LLMError ("Unexpected error calling LLM API: " ++ msg))
       end.

(** The messages [FeatureExtractor.extract_features] and
    [StoryGenerator.generate_storyline] send. *)
Definition feature_messages (product_prompt : string) (max_features : Z) : list (string * string) :=
  [("system", "You are an expert marketing analyst. Always return valid JSON.");
   ("user", Templates.get_feature_extraction_prompt product_prompt max_features)].

Definition storyline_messages (product_prompt : string) (features : list Feat.feature)
    (tone length : string) (audience : option string) : list (string * string) :=
  [("system", "You are an expert marketing copywriter specializing in "
              ++ tone ++ " content. Always return valid JSON.");
   ("user", Templates.get_storyline_generation_prompt product_prompt features tone length audience)].

End LLM.

(* ------------------------------------------------------------------ *)
(** ** [app/main.py]: the [/extract] and [/storyline] endpoints

    Every request builds its [FeatureExtractor] and [StoryGenerator]
    through [Depends], so each service starts with a fresh cache: an
    empty [TTLCache] when [CACHE_ENABLED], [None] otherwise. The
    [slowapi] rate limiter in front of the handlers is not modelled. *)

Module Api.
Import Feat Pipeline.

Inductive reply (A : Type) : Type :=
| Reply200 (a : A)
| HTTPError (code : Z) (detail : string).
Arguments Reply200 {A} a.
Arguments HTTPError {A} code detail.

Definition is_400 {A} (r : reply A) : bool :=
  match r with HTTPError code _ => (code =? 400)%Z | Reply200 _ => false end.

Definition fresh_cache {V} (cache_enabled : bool) : option (store V) :=
  if cache_enabled then Some [] else None.

(** [ExtractRequest]: [min_length]/[max_length] on the raw prompt, the
    [ge]/[le] bounds, then the validator that rejects a blank prompt and
    returns it stripped. [None] is FastAPI's 422 answer. *)
Definition validate_extract_request (product_prompt : string) (max_features : Z)
  : option (string * Z) :=
  if (String.length product_prompt <? 10)%nat || (5000 <? String.length product_prompt)%nat
     || (max_features <? 1)%Z || (50 <? max_features)%Z
  then None
  else if Py.is_emptyb (Py.strip product_prompt) then None
  else Some (Py.strip product_prompt, max_features).

Definition tone_values : list string := ["friendly"; "authoritative"; "playful"; "luxury"; "casual"].
Definition length_values : list string := ["short"; "medium"; "long"].

(** [StorylineRequest]; the features are already [MarketingFeature]s. *)
Definition validate_storyline_request (product_prompt tone length : string)
    (audience : option string) : option string :=
  if (String.length product_prompt <? 10)%nat || (5000 <? String.length product_prompt)%nat
     || negb (mem tone tone_values) || negb (mem length length_values)
     || match audience with Some a => (200 <? String.length a)%nat | None => false end
  then None
  else if Py.is_emptyb (Py.strip product_prompt) then None
  else Some (Py.strip product_prompt).

Section Endpoints.
Context {Resp SR : Type} (E : collab Resp SR) (cache_enabled : bool).

(** [extract_features] endpoint: [ValueError] gives 400, any other
    exception 500. *)
Definition extract_endpoint (product_prompt : string) (max_features : Z) : reply (list feature) :=
  match validate_extract_request product_prompt max_features with
  | None => HTTPError 422 "Unprocessable Entity"
  | Some (p, m) =>
      match fst (extract_features E (fresh_cache cache_enabled) p m) with
      | Ok features => Reply200 features
      | Raise (ValueError msg) => HTTPError 400 msg
      | Raise _ => HTTPError 500 "Internal server error during feature extraction"
      end
  end.

(** [generate_storyline] endpoint: features are extracted (with
    [max_features=10]) when the request has none. *)
Definition storyline_endpoint (product_prompt : string) (features : option (list feature))
    (tone length : string) (audience : option string) : reply SR :=
  match validate_storyline_request product_prompt tone length audience with
  | None => HTTPError 422 "Unprocessable Entity"
  | Some p =>
      let features :=
        match features with
        | Some ((_ :: _) as fs) => Ok fs
        | _ => fst (extract_features E (fresh_cache cache_enabled) p 10)
        end in
      match bindR features (fun fs =>
              fst (generate_storyline E (fresh_cache cache_enabled) p fs tone length audience)) with
      | Ok storyline => Reply200 storyline
      | Raise (ValueError msg) => HTTPError 400 msg
      | Raise _ => HTTPError 500 "Internal server error during storyline generation"
      end
  end.

End Endpoints.

(** [FeatureType(value)] *)
Definition demo_feature_type (t : string) : option feature_type :=
  if String.eqb t "benefit" then Some Benefit
  else if String.eqb t "spec" then Some Spec
  else if String.eqb t "use_case" then Some UseCase
  else if String.eqb t "audience" then Some Audience
  else None.

(** A stand-in for the pydantic [MarketingFeature] constructor after the defaults of
    the loop in [extract_features] ([id] ["f{idx+1}"], [importance_rank]
    [idx + 1], [confidence] 0.8): [name], [type] and [example_phrase] must
    be strings, [type] one of the four values; a given [id] or integer
    [importance_rank] is kept, and [confidence] keeps its default. *)
Definition demo_to_feature (idx : nat) (d : dict) : option feature :=
  match dict_get d "name", dict_get d "type", dict_get d "example_phrase" with
  | Some (JStr n), Some (JStr t), Some (JStr ph) =>
      match demo_feature_type t with
      | None => None
      | Some ty =>
          Some (mkFeature
                  (match dict_get d "id" with
                   | Some (JStr i) => i
                   | _ => "f" ++ Ollama.show_Z (Z.of_nat idx + 1)
                   end)
                  n ty
                  (match dict_get d "importance_rank" with
                   | Some (JNum r) => r
                   | _ => Z.of_nat idx + 1
                   end)
                  (4 # 5) ph)
      end
  | _, _, _ => None
  end.

(** A collaborator set for concrete runs: the LLM answers with the given
    JSON, the features are built by [demo_to_feature], every storyline
    validates, and every cache key encodes. *)
Definition demo_collab (reply : json) : collab unit unit := {|
  feature_prompt := fun _ _ => "";
  storyline_prompt := fun _ _ _ _ _ => "";
  chat_completion := fun _ _ _ => Ok tt;
  extract_json_response := fun _ => Ok reply;
  to_feature := demo_to_feature;
  to_storyline := fun _ => Some tt;
  feature_cache_key := fun _ _ => Some "";
  story_cache_key := fun _ _ _ _ _ => Some "";
  feature_cache_set := fun k v st => (k, v) :: st;
  story_cache_set := fun k v st => (k, v) :: st
|}.

(** An LLM reply with three well-formed features, ranked 3, 1 and 2. *)
Definition demo_feature_reply : json :=
  JArr [JObj [("name", JStr "Portable Design"); ("type", JStr "benefit");
              ("importance_rank", JNum 3); ("example_phrase", JStr "Fits in any bag")];
        JObj [("name", JStr "Leak-proof Lid"); ("type", JStr "spec");
              ("importance_rank", JNum 1); ("example_phrase", JStr "Never spills")];
        JObj [("name", JStr "Insulated Walls"); ("type", JStr "spec");
              ("importance_rank", JNum 2); ("example_phrase", JStr "Cold for 24 hours")]].

(** [demo_collab] for a request whose text holds a lone surrogate (e.g.
    the prompt "Valid prompt\ud800"): [content.encode()] raises in both
    cache keys. *)
Definition surrogate_collab (reply : json) : collab unit unit := {|
  feature_prompt := fun _ _ => "";
  storyline_prompt := fun _ _ _ _ _ => "";
  chat_completion := fun _ _ _ => Ok tt;
  extract_json_response := fun _ => Ok reply;
  to_feature := demo_to_feature;
  to_storyline := fun _ => Some tt;
  feature_cache_key := fun _ _ => None;
  story_cache_key := fun _ _ _ _ _ => None;
  feature_cache_set := fun k v st => (k, v) :: st;
  story_cache_set := fun k v st => (k, v) :: st
|}.

End Api.

(* ------------------------------------------------------------------ *)
(** ** Dictionary lemmas *)

Lemma dict_get_set (d : dict) (k k' : string) (v : json) :
  dict_get (dict_set d k v) k' = if String.eqb k k' then Some v else dict_get d k'.
Proof.
  induction d as [|[k0 v0] rest IH]; simpl.
  - reflexivity.
  - destruct (String.eqb k0 k) eqn:E0.
    + apply String.eqb_eq in E0; subst k0. simpl.
      destruct (String.eqb k k'); reflexivity.
    + simpl. rewrite IH.
      destruct (String.eqb k0 k') eqn:E1; [|reflexivity].
      apply String.eqb_eq in E1; subst k0.
      destruct (String.eqb k k') eqn:E2; [|reflexivity].
      apply String.eqb_eq in E2; subst k.
      rewrite String.eqb_refl in E0. discriminate.
Qed.

Lemma dict_get_set_same (d : dict) (k : string) (v : json) :
  dict_get (dict_set d k v) k = Some v.
Proof. rewrite dict_get_set, String.eqb_refl. reflexivity. Qed.

Lemma dict_get_set_other (d : dict) (k k' : string) (v : json) :
  k <> k' -> dict_get (dict_set d k v) k' = dict_get d k'.
Proof.
  intros Hne. rewrite dict_get_set.
  destruct (String.eqb k k') eqn:E; [apply String.eqb_eq in E; contradiction|reflexivity].
Qed.

Module StoryProofs.
Import Story.

Lemma get_apply_default (d : dict) (k k' : string) (dv : json) :
  dict_get (apply_default d (k, dv)) k' =
  if String.eqb k k'
  then Some (match dict_get d k with Some v => if truthy v then v else dv | None => dv end)
  else dict_get d k'.
Proof.
  unfold apply_default.
  destruct (dict_get d k) as [v|] eqn:Hv; [destruct (truthy v) eqn:Ht|].
  - destruct (String.eqb k k') eqn:E; [|reflexivity].
    apply String.eqb_eq in E; subst k'. exact Hv.
  - apply dict_get_set.
  - apply dict_get_set.
Qed.


Lemma get_fold_defaults_other (ds : list (string * json)) (d : dict) (k : string) :
  ~ In k (map fst ds) ->
  dict_get (fold_left apply_default ds d) k = dict_get d k.
Proof.
  revert d. induction ds as [|[k0 dv0] ds IH]; intros d Hk; cbn [fold_left map fst In] in *; [reflexivity|].
  rewrite IH by tauto. rewrite get_apply_default.
  destruct (String.eqb k0 k) eqn:E; [|reflexivity].
  apply String.eqb_eq in E. tauto.
Qed.

Lemma get_fold_defaults (ds : list (string * json)) (d : dict) (k : string) (dv : json) :
  NoDup (map fst ds) -> In (k, dv) ds ->
  dict_get (fold_left apply_default ds d) k = Some (defaulted (dict_get d k) dv).
Proof.
  revert d. induction ds as [|[k0 dv0] ds IH]; intros d Hnd Hin; cbn [fold_left map fst In] in *; [contradiction|].
  inversion Hnd as [|? ? Hk0 Hnd']; subst.
  destruct Hin as [Heq|Hin].
  - injection Heq as -> ->.
    rewrite get_fold_defaults_other by exact Hk0.
    rewrite get_apply_default, String.eqb_refl. reflexivity.
  - rewrite (IH _ Hnd' Hin), get_apply_default.
    destruct (String.eqb k0 k) eqn:E; [|reflexivity].
    apply String.eqb_eq in E; subst k0.
    exfalso. apply Hk0. apply (in_map fst _ _ Hin).
Qed.

Lemma defaults_keys_nodup : NoDup (map fst defaults).
Proof.
  unfold defaults. simpl map.
  repeat constructor; simpl; intuition discriminate.
Qed.

Lemma get_apply_defaults (d : dict) (k : string) (dv : json) :
  In (k, dv) defaults ->
  dict_get (apply_defaults d) k = Some (defaulted (dict_get d k) dv).
Proof. apply get_fold_defaults, defaults_keys_nodup. Qed.
Lemma text_inv_set_other (d : dict) (k : string) (v : json) :
  ~ In k text_keys -> text_inv d -> text_inv (dict_set d k v).
Proof.
  intros Hk Hd k' Hk'. rewrite dict_get_set_other; [apply Hd, Hk'|].
  intros ->. contradiction.
Qed.

Lemma text_inv_set_text (d : dict) (k s : string) :
  s <> EmptyString -> text_inv d -> text_inv (dict_set d k (JStr s)).
Proof.
  intros Hs Hd k' Hk'. rewrite dict_get_set.
  destruct (String.eqb k k'); [eauto|apply Hd, Hk'].
Qed.

Lemma append_dots_nonempty (s : string) : s ++ "..." <> EmptyString.
Proof. destruct s; discriminate. Qed.

Lemma defaulted_str (o : option json) (s0 : string) :
  s0 <> EmptyString ->
  match o with None => true | Some v => negb (truthy v) || is_str v end = true ->
  exists s, defaulted o (JStr s0) = JStr s /\ s <> EmptyString.
Proof.
  intros Hs0 Ho. destruct o as [v|]; simpl; [|eauto].
  destruct (truthy v) eqn:Ht; simpl in Ho; [|eauto].
  destruct v; try discriminate. exists s. split; [reflexivity|].
  intros ->. discriminate.
Qed.

Lemma defaulted_arr (o : option json) (xs0 : list json) :
  xs0 <> [] ->
  match o with None => true | Some v => negb (truthy v) || is_arr v end = true ->
  exists xs, defaulted o (JArr xs0) = JArr xs /\ (1 <= List.length xs)%nat.
Proof.
  intros Hxs0 Ho.
  assert (H1 : forall ys : list json, ys <> [] -> (1 <= List.length ys)%nat)
    by (intros [|y ys] Hy; simpl; [contradiction|lia]).
  destruct o as [v|]; simpl; [|eauto].
  destruct (truthy v) eqn:Ht; simpl in Ho; [|eauto].
  destruct v; try discriminate. exists xs. split; [reflexivity|].
  apply H1. intros ->. discriminate.
Qed.

Lemma apply_defaults_inv (d : dict) :
  input_typedb d = true ->
  text_inv (apply_defaults d) /\
  (forall k n, In (k, n) list_mins -> arr_inv (apply_defaults d) k 1).
Proof.
  unfold input_typedb. rewrite andb_true_iff, !forallb_forall.
  intros [Ht Hl]. split.
  - intros k Hk.
    specialize (Ht k Hk). unfold field_typedb in Ht.
    assert (Hd : exists s0, In (k, JStr s0) defaults /\ s0 <> EmptyString).
    { simpl in Hk.
      repeat (destruct Hk as [<-|Hk];
              [eexists; split; [simpl; repeat (try (left; reflexivity); right)|discriminate]|]).
      contradiction. }
    destruct Hd as [s0 [Hin Hs0]].
    rewrite (get_apply_defaults d k _ Hin).
    destruct (defaulted_str (dict_get d k) s0 Hs0 Ht) as [s [-> Hs]]. eauto.
  - intros k n Hkn.
    specialize (Hl (k, n) Hkn). unfold field_typedb in Hl. simpl in Hl.
    assert (Hd : exists xs0, In (k, JArr xs0) defaults /\ xs0 <> []).
    { simpl in Hkn.
      repeat (destruct Hkn as [Hkn|Hkn];
              [injection Hkn as <- _;
               eexists; split; [simpl; repeat (try (left; reflexivity); right)|discriminate]|]).
      contradiction. }
    destruct Hd as [xs0 [Hin Hxs0]].
    unfold arr_inv. rewrite (get_apply_defaults d k _ Hin).
    destruct (defaulted_arr (dict_get d k) xs0 Hxs0 Hl) as [xs [-> Hxs]].
    exists xs. auto.
Qed.

Lemma text_inv_headline (d : dict) :
  text_inv d -> exists s, dict_get d "headline" = Some (JStr s) /\ s <> EmptyString.
Proof. intros H. apply H. simpl. auto. Qed.

Lemma text_inv_hero (d : dict) :
  text_inv d -> exists s, dict_get d "hero_paragraph" = Some (JStr s) /\ s <> EmptyString.
Proof. intros H. apply H. simpl. auto. Qed.

(** The [hero_paragraph] step of the short tier. *)
Lemma short_hero_ok (d1 : dict) :
  text_inv d1 ->
  exists d2,
    match dict_get_or d1 "hero_paragraph" (JStr "") with
    | JStr hero =>
        let hero_words := Py.split hero in
        if (100 <? List.length hero_words)%nat
        then Some (dict_set d1 "hero_paragraph"
                     (JStr (Py.join " " (firstn 100 hero_words) ++ "...")))
        else Some d1
    | _ => None
    end = Some d2 /\ text_inv d2 /\
    (forall k, ~ In k text_keys -> dict_get d2 k = dict_get d1 k).
Proof.
  intros Hd1. destruct (text_inv_hero d1 Hd1) as [h [Hh _]].
  unfold dict_get_or. rewrite Hh. cbv zeta.
  destruct (100 <? List.length (Py.split h))%nat.
  - eexists. split; [reflexivity|]. split.
    + apply text_inv_set_text; [apply append_dots_nonempty|exact Hd1].
    + intros k Hk. apply dict_get_set_other. intros <-. apply Hk. simpl. auto.
  - eexists. split; [reflexivity|]. auto.
Qed.

Lemma apply_length_constraints_ok (d : dict) (length : string) :
  text_inv d ->
  exists d', apply_length_constraints d length = Some d' /\ text_inv d' /\
    (forall k, ~ In k text_keys -> dict_get d' k = dict_get d k).
Proof.
  intros Hd. unfold apply_length_constraints.
  destruct (String.eqb length "short").
  - destruct (text_inv_headline d Hd) as [s [Hs _]].
    assert (Hh : dict_get_or d "headline" (JStr "") = JStr s)
      by (unfold dict_get_or; rewrite Hs; reflexivity).
    rewrite Hh. simpl py_len. cbv beta iota zeta.
    destruct (60 <? String.length s)%nat; cbv beta iota.
    + set (d1 := dict_set d "headline" (JStr (Py.take 60 s ++ "..."))).
      assert (Hd1 : text_inv d1)
        by (apply text_inv_set_text; [apply append_dots_nonempty|exact Hd]).
      destruct (short_hero_ok d1 Hd1) as [d2 [E [Hd2 Hk2]]].
      exists d2. split; [exact E|]. split; [exact Hd2|].
      intros k Hk. rewrite Hk2 by exact Hk. unfold d1.
      apply dict_get_set_other. intros <-. apply Hk. simpl. auto.
    + exact (short_hero_ok d Hd).
  - destruct (String.eqb length "long").
    + destruct (text_inv_hero d Hd) as [h [Hh _]].
      unfold dict_get_or. rewrite Hh. eauto.
    + eauto.
Qed.

Lemma pad_list_ok (d : dict) (k : string) (n : nat) (filler : string) :
  arr_inv d k 0 ->
  exists d', pad_list d k n filler = Some d' /\ arr_inv d' k n /\
    (forall k', k <> k' -> dict_get d' k' = dict_get d k').
Proof.
  intros [xs [Hxs _]]. unfold pad_list. rewrite Hxs. simpl py_len. cbv beta iota.
  destruct (List.length xs <? n)%nat eqn:Hlt.
  - eexists. split; [reflexivity|]. split.
    + exists (xs ++ repeat (JStr filler) (n - List.length xs))%list.
      rewrite dict_get_set_same. split; [reflexivity|].
      rewrite length_app, repeat_length. lia.
    + intros k' Hk'. apply dict_get_set_other, Hk'.
  - eexists. split; [reflexivity|]. split; [|auto].
    exists xs. split; [exact Hxs|]. apply Nat.ltb_ge in Hlt. exact Hlt.
Qed.

Lemma package_okb_of_inv (d : dict) :
  text_inv d ->
  arr_inv d "bulleted_features" 3 -> arr_inv d "use_cases" 2 ->
  arr_inv d "ctas" 2 -> arr_inv d "social_posts" 2 ->
  package_okb d = true.
Proof.
  intros Ht Hb Hu Hc Hs. unfold package_okb. rewrite andb_true_iff, !forallb_forall.
  split.
  - intros k Hk. destruct (Ht k Hk) as [s [Hs' Hne]].
    unfold text_okb. rewrite Hs'. destruct s; [contradiction|reflexivity].
  - intros [k n] Hkn. unfold list_okb. simpl.
    assert (Hk : arr_inv d k n).
    { simpl in Hkn.
      repeat (destruct Hkn as [Hkn|Hkn]; [injection Hkn as <- <-; assumption|]).
      contradiction. }
    destruct Hk as [xs [Hxs Hn]]. rewrite Hxs. apply Nat.leb_le, Hn.
Qed.

Lemma text_inv_transfer (d d' : dict) :
  (forall k, In k text_keys -> dict_get d' k = dict_get d k) -> text_inv d -> text_inv d'.
Proof. intros Heq Hd k Hk. rewrite Heq by exact Hk. apply Hd, Hk. Qed.

Lemma arr_inv_transfer (d d' : dict) (k : string) (n m : nat) :
  dict_get d' k = dict_get d k -> (m <= n)%nat -> arr_inv d k n -> arr_inv d' k m.
Proof. intros Heq Hmn [xs [Hxs Hn]]. exists xs. rewrite Heq. split; [exact Hxs|lia]. Qed.

End StoryProofs.

(* ------------------------------------------------------------------ *)
(** ** Claims about the storyline normalizer *)

Module StoryClaims.
Import Story StoryProofs.

(** C1 (as stated, refuted): a parsed record whose [headline] is a
    non-empty JSON array is truthy, so no default replaces it, and the
    normalizer returns it unchanged: the returned [headline] is not a
    string, so the package invariant fails. *)
Lemma post_process_untyped_headline_cex :
  exists d',
    post_process_storyline [("headline", JArr [JStr "Buy now"])] "friendly" "medium" = Some d'
    /\ dict_get d' "headline" = Some (JArr [JStr "Buy now"])
    /\ package_okb d' = false.
Proof. eexists. split; [reflexivity|]. split; reflexivity. Qed.

(** C1 (amended): for every parsed storyline record (the empty object
    included) whose fields are each absent, falsy, or of their schema
    type (a string for the six text fields, an array for the four list
    fields), and for every tone and length tier, the normalizer returns
    a record whose six text fields are non-empty strings, whose
    [bulleted_features] has at least 3 entries and whose [use_cases],
    [ctas] and [social_posts] have at least 2 entries each. *)
Theorem post_process_storyline_complete (d : dict) (tone length : string) :
  input_typedb d = true ->
  exists d', post_process_storyline d tone length = Some d' /\ package_okb d' = true.
Proof.
  intros Hty.
  destruct (apply_defaults_inv d Hty) as [Ht1 Hl1].
  destruct (apply_length_constraints_ok (apply_defaults d) length Ht1)
    as [d2 [E2 [Ht2 Hk2]]].
  assert (Hl2 : forall k n, In (k, n) list_mins -> arr_inv d2 k 0).
  { intros k n Hkn. apply (arr_inv_transfer (apply_defaults d) d2 k 1 0).
    - apply Hk2. simpl in Hkn |- *.
      repeat (destruct Hkn as [Hkn|Hkn]; [injection Hkn as <- _; intuition discriminate|]).
      contradiction.
    - lia.
    - exact (Hl1 k n Hkn). }
  destruct (pad_list_ok d2 "bulleted_features" 3 "Additional benefit"
              (Hl2 _ 3%nat ltac:(simpl; auto))) as [d3 [E3 [Hb3 Hk3]]].
  assert (Hu3 : arr_inv d3 "use_cases" 0).
  { apply (arr_inv_transfer d2 d3 _ 0 0); [apply Hk3; discriminate|lia|].
    apply (Hl2 _ 2%nat). simpl. auto. }
  destruct (pad_list_ok d3 "use_cases" 2 "Additional use case" Hu3)
    as [d4 [E4 [Hu4 Hk4]]].
  assert (Hc4 : arr_inv d4 "ctas" 0).
  { apply (arr_inv_transfer d2 d4 _ 0 0); [|lia|].
    - rewrite Hk4, Hk3 by discriminate. reflexivity.
    - apply (Hl2 _ 2%nat). simpl. auto. }
  destruct (pad_list_ok d4 "ctas" 2 "Take Action" Hc4) as [d5 [E5 [Hc5 Hk5]]].
  assert (Hs5 : arr_inv d5 "social_posts" 0).
  { apply (arr_inv_transfer d2 d5 _ 0 0); [|lia|].
    - rewrite Hk5, Hk4, Hk3 by discriminate. reflexivity.
    - apply (Hl2 _ 2%nat). simpl. auto 6. }
  destruct (pad_list_ok d5 "social_posts" 2 "Check out this amazing product!" Hs5)
    as [d6 [E6 [Hs6 Hk6]]].
  exists d6. split.
  - unfold post_process_storyline. rewrite E2. simpl. rewrite E3. simpl.
    rewrite E4. simpl. rewrite E5. simpl. exact E6.
  - apply package_okb_of_inv.
    + apply (text_inv_transfer d2 d6); [|exact Ht2].
      intros k Hk.
      assert (Hb : "bulleted_features" <> k) by (intros <-; simpl in Hk; intuition discriminate).
      assert (Hu : "use_cases" <> k) by (intros <-; simpl in Hk; intuition discriminate).
      assert (Hc : "ctas" <> k) by (intros <-; simpl in Hk; intuition discriminate).
      assert (Hs : "social_posts" <> k) by (intros <-; simpl in Hk; intuition discriminate).
      rewrite Hk6, Hk5, Hk4, Hk3 by assumption. reflexivity.
    + apply (arr_inv_transfer d3 d6 _ 3 3); [|lia|exact Hb3].
      rewrite Hk6, Hk5, Hk4 by discriminate. reflexivity.
    + apply (arr_inv_transfer d4 d6 _ 2 2); [|lia|exact Hu4].
      rewrite Hk6, Hk5 by discriminate. reflexivity.
    + apply (arr_inv_transfer d5 d6 _ 2 2); [|lia|exact Hc5].
      rewrite Hk6 by discriminate. reflexivity.
    + exact Hs6.
Qed.

(** Witness: the empty parsed object, short tier. *)
Lemma post_process_storyline_complete_witness :
  input_typedb [] = true /\
  exists d', post_process_storyline [] "playful" "short" = Some d' /\ package_okb d' = true.
Proof.
  split; [reflexivity|].
  apply (post_process_storyline_complete [] "playful" "short"). reflexivity.
Defined.

(** C4 (code defect): in the short tier a headline over 60 characters
    is cut to its first 60 characters and then "..." is appended, so the
    returned headline has 63 characters, over the 60-character budget
    that the guard [len(headline) > 60] checks. *)
Lemma short_headline_exceeds_budget :
  let h := "Eco-friendly water bottle for Gen Z: sip, chill, save the planet!" in
  (60 < String.length h)%nat /\
  exists d',
    post_process_storyline [("headline", JStr h)] "playful" "short" = Some d'
    /\ dict_get d' "headline" = Some (JStr (Py.take 60 h ++ "..."))
    /\ String.length (Py.take 60 h ++ "...") = 63%nat.
Proof.
  cbv zeta. split; [vm_compute; lia|].
  eexists. split; [reflexivity|]. split; reflexivity.
Qed.

End StoryClaims.
(* ------------------------------------------------------------------ *)
(** ** Lemmas on deduplication and ranking *)

Module FeatProofs.
Import Feat.
Local Open Scope list_scope.

Lemma set_inter_nil_r (a : list string) : set_inter a [] = [].
Proof. induction a as [|w a IH]; simpl; [reflexivity|exact IH]. Qed.

Lemma of_nat_pos (u : nat) : (0 < u)%nat -> Zpos (Pos.of_nat u) = Z.of_nat u.
Proof.
  intros Hu. rewrite <- positive_nat_Z, Nat2Pos.id; [reflexivity|lia].
Qed.

Lemma names_similar_jaccard (a b : string) :
  let I := List.length (set_inter (word_set a) (word_set b)) in
  let U := List.length (set_union (word_set a) (word_set b)) in
  names_similar a b = true <-> (0 < U)%nat /\ (4 * U <= 5 * I)%nat.
Proof.
  cbv zeta. unfold names_similar, names_similar_t.
  destruct (word_set a) as [|w1 ws1] eqn:Ea; cbn [is_nil orb]; cbv beta iota.
  - simpl. split; [discriminate|lia].
  - destruct (word_set b) as [|w2 ws2] eqn:Eb; cbn [is_nil orb]; cbv beta iota.
    + rewrite set_inter_nil_r. simpl. split; [discriminate|lia].
    + set (I := List.length (set_inter (w1 :: ws1) (w2 :: ws2))).
      set (U := List.length (set_union (w1 :: ws1) (w2 :: ws2))).
      destruct (0 <? U)%nat eqn:HU.
      * apply Nat.ltb_lt in HU.
        rewrite Qle_bool_iff. unfold Qle. simpl Qnum. simpl Qden.
        rewrite of_nat_pos by exact HU. clearbody I U.
        split; [intros Hq; split; [exact HU|lia]|intros [_ Hq]; lia].
      * apply Nat.ltb_ge in HU. clearbody I U.
        split; [intros Hq; vm_compute in Hq; discriminate|intros [HU2 _]; lia].
Qed.

Lemma existsb_map_nn (p : string -> bool) (l : list feature) :
  existsb p (map normalized_name l) = existsb (fun g => p (normalized_name g)) l.
Proof. induction l as [|g l IH]; simpl; [reflexivity|rewrite IH; reflexivity]. Qed.

Lemma dedupe_go_snoc (seen : list string) (pre : list feature) (f : feature) :
  dedupe_go seen (pre ++ [f]) =
  dedupe_go seen pre ++
  (if existsb (fun s => names_similar (normalized_name f) s)
        (seen ++ map normalized_name (dedupe_go seen pre))
   then [] else [f]).
Proof.
  revert seen. induction pre as [|g pre IH]; intros seen; simpl.
  - rewrite app_nil_r. destruct (existsb _ seen); reflexivity.
  - destruct (existsb (fun s => names_similar (normalized_name g) s) seen) eqn:Eg.
    + apply IH.
    + simpl. rewrite IH. f_equal. f_equal.
      rewrite !existsb_app. simpl.
      destruct (names_similar (normalized_name f) (normalized_name g)),
               (existsb (fun s => names_similar (normalized_name f) s) seen);
        reflexivity.
Qed.

Lemma dedupe_snoc (pre : list feature) (f : feature) :
  deduplicate_features (pre ++ [f]) =
  deduplicate_features pre ++
  (if existsb (fun g => names_similar (normalized_name f) (normalized_name g))
        (deduplicate_features pre)
   then [] else [f]).
Proof.
  unfold deduplicate_features. rewrite dedupe_go_snoc. simpl.
  rewrite existsb_map_nn. reflexivity.
Qed.

(** Ranking. *)

Lemma key_lt_rank_conf (f g : feature) : key_lt f g = true -> rank_conf_le f g.
Proof.
  unfold key_lt, rank_conf_le, Qltb. simpl.
  intros H. apply orb_true_iff in H. destruct H as [H|H].
  - left. apply Z.ltb_lt, H.
  - apply andb_true_iff in H. destruct H as [H1 H2].
    apply Z.eqb_eq in H1. right. split; [exact H1|].
    apply negb_true_iff in H2.
    assert (Hn : ~ (- confidence g <= - confidence f)%Q)
      by (intros Hle; apply Qle_bool_iff in Hle; congruence).
    apply Qnot_le_lt in Hn.
    apply Qlt_le_weak in Hn.
    apply Qopp_le_compat in Hn. rewrite !Qopp_involutive in Hn. exact Hn.
Qed.

Lemma key_nlt_rank_conf (f g : feature) : key_lt g f = false -> rank_conf_le f g.
Proof.
  unfold key_lt, rank_conf_le, Qltb. simpl.
  intros H. apply orb_false_iff in H. destruct H as [H1 H2].
  apply Z.ltb_ge in H1.
  destruct (Z.eq_dec (importance_rank f) (importance_rank g)) as [Heq|Hne];
    [|left; lia].
  right. split; [exact Heq|].
  rewrite Heq, Z.eqb_refl in H2. simpl in H2.
  apply negb_false_iff, Qle_bool_iff in H2.
  apply Qopp_le_compat in H2. rewrite !Qopp_involutive in H2. exact H2.
Qed.

Lemma insert_perm (x : feature) (l : list feature) : Permutation (x :: l) (insert x l).
Proof.
  induction l as [|y l IH]; simpl; [reflexivity|].
  destruct (key_lt y x); [|reflexivity].
  rewrite perm_swap. constructor. exact IH.
Qed.

Lemma sort_perm (l : list feature) : Permutation l (sort l).
Proof.
  induction l as [|x l IH]; simpl; [constructor|].
  rewrite <- insert_perm. constructor. exact IH.
Qed.

Lemma insert_sorted (x : feature) (l : list feature) :
  Sorted rank_conf_le l -> Sorted rank_conf_le (insert x l).
Proof.
  induction l as [|y l IH]; intros Hs; simpl.
  - repeat constructor.
  - destruct (key_lt y x) eqn:E.
    + apply Sorted_inv in Hs. destruct Hs as [Hs Hhd].
      constructor; [apply IH, Hs|].
      destruct l as [|z l]; simpl.
      * constructor. apply key_lt_rank_conf, E.
      * destruct (key_lt z x); constructor.
        -- inversion Hhd; assumption.
        -- apply key_lt_rank_conf, E.
    + constructor; [exact Hs|]. constructor. apply key_nlt_rank_conf, E.
Qed.

Lemma sort_sorted (l : list feature) : Sorted rank_conf_le (sort l).
Proof. induction l as [|x l IH]; simpl; [constructor|apply insert_sorted, IH]. Qed.

Lemma renumber_ranks (n : nat) (l : list feature) :
  map importance_rank (renumber (Z.of_nat n) l) = map Z.of_nat (seq n (List.length l)).
Proof.
  revert n. induction l as [|f l IH]; intros n; simpl; [reflexivity|].
  f_equal. rewrite <- IH. f_equal. f_equal. lia.
Qed.

Lemma renumber_fields (i : Z) (l : list feature) :
  Forall2 (fun g f => g = set_rank f (importance_rank g)) (renumber i l) l.
Proof.
  revert i. induction l as [|f l IH]; intros i; simpl; constructor; [reflexivity|apply IH].
Qed.

(** Idempotence on deduplicated, ranked lists. *)

Lemma dedupe_go_id (seen : list string) (fs : list feature) :
  (forall pre f post s, fs = (pre ++ f :: post)%list ->
     In s seen \/ In s (map normalized_name pre) ->
     names_similar (normalized_name f) s = false) ->
  dedupe_go seen fs = fs.
Proof.
  revert seen. induction fs as [|f fs IH]; intros seen H; simpl; [reflexivity|].
  assert (Hf : existsb (fun s => names_similar (normalized_name f) s) seen = false).
  { destruct (existsb _ seen) eqn:E; [|reflexivity].
    apply existsb_exists in E. destruct E as [s [Hs Hsim]].
    rewrite (H [] f fs s eq_refl (or_introl Hs)) in Hsim. discriminate. }
  rewrite Hf. f_equal. apply IH.
  intros pre g post s Heq Hs.
  apply (H (f :: pre) g post s); [rewrite Heq; reflexivity|].
  simpl. destruct Hs as [[<-|Hs]|Hs]; tauto.
Qed.

Lemma deduplicated_fixed (fs : list feature) :
  deduplicated fs -> deduplicate_features fs = fs.
Proof.
  intros H. apply dedupe_go_id.
  intros pre f post s Heq [[]|Hs].
  apply in_map_iff in Hs. destruct Hs as [g [<- Hg]].
  exact (H pre f post g Heq Hg).
Qed.

Lemma sort_ranked (n : nat) (l : list feature) :
  map importance_rank l = map Z.of_nat (seq n (List.length l)) -> sort l = l.
Proof.
  revert n. induction l as [|x l IH]; intros n H; simpl; [reflexivity|].
  simpl in H. injection H as Hx Hl.
  rewrite (IH (S n) Hl).
  destruct l as [|y l]; simpl; [reflexivity|].
  simpl in Hl. injection Hl as Hy _.
  rewrite Zpos_P_of_succ_nat in Hy.
  unfold key_lt. simpl. rewrite Hx, Hy.
  replace ((Z.succ (Z.of_nat n) <? Z.of_nat n)%Z) with false by (symmetry; apply Z.ltb_ge; lia).
  replace ((Z.succ (Z.of_nat n) =? Z.of_nat n)%Z) with false by (symmetry; apply Z.eqb_neq; lia).
  reflexivity.
Qed.

Lemma renumber_ranked (n : nat) (l : list feature) :
  map importance_rank l = map Z.of_nat (seq n (List.length l)) ->
  renumber (Z.of_nat n) l = l.
Proof.
  revert n. induction l as [|x l IH]; intros n H; simpl; [reflexivity|].
  simpl in H. injection H as Hx Hl.
  replace (Z.of_nat n + 1)%Z with (Z.of_nat (S n)) by lia.
  rewrite (IH (S n) Hl), <- Hx.
  destruct x; reflexivity.
Qed.

End FeatProofs.

(* ------------------------------------------------------------------ *)
(** ** Claims about deduplication and ranking *)

Module FeatClaims.
Import Feat FeatProofs.
Local Open Scope list_scope.

(** C2: two features are duplicates exactly when the whitespace-split
    word sets of their normalized (lowercased, trimmed) names have Jaccard
    similarity
    |intersection| / |union| >= 0.8 (an empty union counts as 0); the
    pass is greedy and order-preserving: a feature is appended to the
    output exactly when it is not a duplicate of a feature already kept.
    For ["Portable Design"; "Portable"; "4K Display"] the first two have
    similarity 1/2 < 0.8 and all three features are kept. *)
Theorem dedupe_greedy_jaccard :
  (forall f g,
     let I := List.length (set_inter (word_set (normalized_name f)) (word_set (normalized_name g))) in
     let U := List.length (set_union (word_set (normalized_name f)) (word_set (normalized_name g))) in
     names_similar (normalized_name f) (normalized_name g) = true <->
     (0 < U)%nat /\ (4 * U <= 5 * I)%nat) /\
  deduplicate_features [] = [] /\
  (forall pre f,
     deduplicate_features (pre ++ [f]) =
     deduplicate_features pre ++
     (if existsb (fun g => names_similar (normalized_name f) (normalized_name g))
           (deduplicate_features pre)
      then [] else [f])) /\
  (let fs := [mkFeature "f1" "Portable Design" Benefit 1 (9 # 10) "Test";
              mkFeature "f2" "Portable" Benefit 2 (8 # 10) "Test";
              mkFeature "f3" "4K Display" Spec 3 (9 # 10) "Test"] in
   names_similar "portable design" "portable" = false /\
   deduplicate_features fs = fs).
Proof.
  split; [|split; [reflexivity|split]].
  - intros f g. apply names_similar_jaccard.
  - apply dedupe_snoc.
  - cbv zeta. split; vm_compute; reflexivity.
Qed.

(** C3: ranking sorts by importance_rank ascending with confidence
    descending as tie-break (the sorted list is a permutation of the
    input, ordered by that key), then renumbers importance_rank to
    1..N in the resulting order, leaving every other field unchanged.
    Ranks [3;1;2] with confidences [0.7;0.9;0.8] come out as the
    rank-1, rank-2 and rank-3 items, renumbered [1;2;3]. *)
Theorem rank_features_sorts_and_renumbers :
  (forall fs,
     Permutation fs (sort fs) /\
     Sorted rank_conf_le (sort fs) /\
     Forall2 (fun g f => g = set_rank f (importance_rank g)) (rank_features fs) (sort fs) /\
     map importance_rank (rank_features fs) = map Z.of_nat (seq 1 (List.length fs))) /\
  (let f1 := mkFeature "f1" "Feature 1" Benefit 3 (7 # 10) "Test" in
   let f2 := mkFeature "f2" "Feature 2" Spec 1 (9 # 10) "Test" in
   let f3 := mkFeature "f3" "Feature 3" Benefit 2 (8 # 10) "Test" in
   rank_features [f1; f2; f3] = [set_rank f2 1; set_rank f3 2; set_rank f1 3]).
Proof.
  split.
  - intros fs. split; [apply sort_perm|]. split; [apply sort_sorted|]. split.
    + apply renumber_fields.
    + unfold rank_features. rewrite (Permutation_length (sort_perm fs)).
      apply (renumber_ranks 1).
  - reflexivity.
Qed.

(** C10: on a list that is already deduplicated (no feature's name is
    similar to an earlier one's) and already ranked (ranks 1..N in list
    order), deduplication followed by ranking returns the list unchanged. *)
Theorem dedupe_rank_idempotent (fs : list feature) :
  deduplicated fs -> ranked fs ->
  rank_features (deduplicate_features fs) = fs.
Proof.
  intros Hd Hr. rewrite (deduplicated_fixed fs Hd).
  unfold rank_features, ranked in *.
  rewrite (sort_ranked 1 fs Hr). apply (renumber_ranked 1 fs Hr).
Qed.

Lemma dedupe_rank_idempotent_witness :
  let fs := [mkFeature "f1" "Portable Design" Benefit 1 (95 # 100) "Fits in your hand";
             mkFeature "f2" "4K Resolution" Spec 2 (9 # 10) "Crystal clear 4K display"] in
  deduplicated fs /\ ranked fs /\ rank_features (deduplicate_features fs) = fs.
Proof.
  cbv zeta.
  assert (Hd : deduplicated
    [mkFeature "f1" "Portable Design" Benefit 1 (95 # 100) "Fits in your hand";
     mkFeature "f2" "4K Resolution" Spec 2 (9 # 10) "Crystal clear 4K display"]).
  { intros pre f post g Heq Hg.
    destruct pre as [|a [|b pre]]; [contradiction| |].
    - injection Heq as <- <- _. destruct Hg as [<-|[]]. vm_compute. reflexivity.
    - injection Heq as _ _ Heq. destruct pre; discriminate. }
  assert (Hr : ranked
    [mkFeature "f1" "Portable Design" Benefit 1 (95 # 100) "Fits in your hand";
     mkFeature "f2" "4K Resolution" Spec 2 (9 # 10) "Crystal clear 4K display"])
    by reflexivity.
  split; [exact Hd|]. split; [exact Hr|].
  exact (dedupe_rank_idempotent _ Hd Hr).
Defined.

End FeatClaims.

(* ------------------------------------------------------------------ *)
(** ** Claims about the Ollama generator *)

Module OllamaClaims.
Import Ollama.

(** C5 (code defect): a reply whose tagline has one word and whose
    narrative has one word comes back as a successful generation with a
    one-word tagline and a one-word narrative. The padding joins empty
    strings, which [.strip()] removes and which are no words anyway, so
    the tagline is not brought to 10 words nor the narrative to 100. *)
Lemma generate_once_padding_adds_no_words :
  let backend := fun (_ _ : string) => Response 200 "TAGLINE: Fresh
NARRATIVE: Good" in
  generate_once backend "Eco-friendly water bottle for Gen Z" "llama2"
    = GenOk "Fresh" "Good" "llama2" /\
  List.length (Py.split "Fresh") = 1%nat /\
  List.length (Py.split "Good") = 1%nat.
Proof. cbv zeta. split; [|split]; vm_compute; reflexivity. Qed.

(** C6 (code defect): when the first model answers with the client error
    404, the loop still moves on to the next model and returns its
    success; the [status == 500] test only decides between two branches
    that both continue. *)
Lemma generate_storyline_moves_on_after_client_error :
  let backend := fun (model _ : string) =>
    if String.eqb model "llama2" then Response 404 ""
    else Response 200 "TAGLINE: Fresh
NARRATIVE: Good" in
  generate_once backend "Eco-friendly water bottle for Gen Z" "llama2"
    = GenFail "API error 404" (Some 404%Z) /\
  generate_storyline backend true ["llama2"; "llama3.2:1b"] "Eco-friendly water bottle for Gen Z"
    = GenOk "Fresh" "Good" "llama3.2:1b".
Proof. cbv zeta. split; vm_compute; reflexivity. Qed.

End OllamaClaims.

(* ------------------------------------------------------------------ *)
(** ** Claims about the pipelines *)

Module PipelineClaims.
Import Feat Pipeline.

(** C7: a run of either service that raises (validation error, LLM or
    backend error, unparseable output, failed normalization or schema
    validation) returns the cache exactly as it received it: nothing is
    inserted or overwritten, so every entry cached before the run is
    still there. This holds for every behaviour of the collaborators. *)
Theorem failed_run_leaves_cache {Resp SR : Type} (E : collab Resp SR) :
  (forall cache product_prompt max_features,
     is_raise (fst (extract_features E cache product_prompt max_features)) = true ->
     snd (extract_features E cache product_prompt max_features) = cache) /\
  (forall cache product_prompt features tone length audience,
     is_raise (fst (generate_storyline E cache product_prompt features tone length audience)) = true ->
     snd (generate_storyline E cache product_prompt features tone length audience) = cache).
Proof.
  split.
  - intros cache p m. unfold extract_features.
    destruct (Py.is_emptyb (Py.strip p)); [reflexivity|].
    destruct ((m <? 1)%Z || (50 <? m)%Z); [reflexivity|].
    destruct (feature_cache_key E p m) as [k|]; [|reflexivity].
    destruct (cache_hit cache k); [reflexivity|].
    destruct (extraction_try E p m); [discriminate|reflexivity].
  - intros cache p fs tone len aud. unfold generate_storyline.
    destruct (Py.is_emptyb (Py.strip p)); [reflexivity|].
    destruct (is_nil fs); [reflexivity|].
    destruct (story_cache_key E p fs tone len aud) as [k|]; [|reflexivity].
    destruct (cache_hit cache k); [reflexivity|].
    destruct (storyline_try E p fs tone len aud); [discriminate|reflexivity].
Qed.

(** C8 (as stated, refuted): the prompt "Valid prompt" followed by a lone
    surrogate (["\ud800"], which a JSON request body can carry) is not
    blank and [max_features] = 1 is in range, yet [extract_features]
    raises a [ValueError]: [_generate_cache_key] calls [content.encode()]
    before the [try], and the encoding raises [UnicodeEncodeError], a
    subclass of [ValueError].  [Api.surrogate_collab] is the collaborator
    set of that prompt, whose cache-key encoding fails. *)
Lemma extract_features_surrogate_cex :
  Py.is_emptyb (Py.strip "Valid prompt") = false /\
  (1 <= 1 <= 50)%Z /\
  fst (extract_features (Api.surrogate_collab (JArr [])) None "Valid prompt" 1)
    = Raise (ValueError encode_error_msg) /\
  is_value_error (fst (extract_features (Api.surrogate_collab (JArr [])) None "Valid prompt" 1))
    = true.
Proof. split; [|split; [lia|split]]; vm_compute; reflexivity. Qed.

(** C8 (amended): [extract_features] raises a [ValueError] exactly when
    the prompt is empty after [strip()], [max_features] lies outside
    [1, 50], or, both checks passed, the cache-key text cannot be encoded
    (a lone surrogate in the prompt); every other failure is re-raised as
    [LLMError].  [max_features] 0 and 51 raise it whatever the prompt, and
    1 and 50 raise it for "Valid prompt" only when its key cannot be
    encoded. *)
Theorem extract_features_value_error {Resp SR : Type} (E : collab Resp SR) :
  (forall cache product_prompt max_features,
     is_value_error (fst (extract_features E cache product_prompt max_features)) =
     Py.is_emptyb (Py.strip product_prompt) || (max_features <? 1)%Z || (50 <? max_features)%Z
     || is_none (feature_cache_key E product_prompt max_features)) /\
  (forall cache,
     is_value_error (fst (extract_features E cache "Valid prompt" 0)) = true /\
     is_value_error (fst (extract_features E cache "Valid prompt" 51)) = true /\
     is_value_error (fst (extract_features E cache "Valid prompt" 1)) =
       is_none (feature_cache_key E "Valid prompt" 1) /\
     is_value_error (fst (extract_features E cache "Valid prompt" 50)) =
       is_none (feature_cache_key E "Valid prompt" 50)).
Proof.
  assert (Hgen : forall cache p m,
     is_value_error (fst (extract_features E cache p m)) =
     Py.is_emptyb (Py.strip p) || (m <? 1)%Z || (50 <? m)%Z
     || is_none (feature_cache_key E p m)).
  { intros cache p m. unfold extract_features.
    destruct (Py.is_emptyb (Py.strip p)); [reflexivity|].
    simpl orb.
    destruct ((m <? 1)%Z || (50 <? m)%Z); [reflexivity|].
    simpl orb.
    destruct (feature_cache_key E p m) as [k|]; [|reflexivity].
    destruct (cache_hit cache k); [reflexivity|].
    destruct (extraction_try E p m) as [fs|e]; [reflexivity|].
    destruct e; reflexivity. }
  split; [exact Hgen|].
  intros cache. rewrite !Hgen. vm_compute. repeat split.
Qed.

End PipelineClaims.

(* ------------------------------------------------------------------ *)
(** ** description.py: slicing the reply before [json.loads] *)

Module ScenesProofs.
Import Scenes.
Local Open Scope nat_scope.

Lemma str_app_assoc (a b c : string) : ((a ++ b) ++ c) = (a ++ (b ++ c)).
Proof. induction a; simpl; congruence. Qed.

Lemma has_char_app c a b : has_char c (a ++ b) = has_char c a || has_char c b.
Proof. induction a; simpl; [reflexivity|]. rewrite IHa, orb_assoc. reflexivity. Qed.

Lemma find_char_app_l c P s :
  has_char c P = false ->
  find_char c (P ++ s) = option_map (Nat.add (String.length P)) (find_char c s).
Proof.
  induction P; simpl; intros H.
  - destruct (find_char c s); reflexivity.
  - apply orb_false_iff in H as [H1 H2]. rewrite H1, (IHP H2).
    destruct (find_char c s); reflexivity.
Qed.

Lemma find_char_app_r c s S n :
  find_char c s = Some n -> find_char c (s ++ S) = Some n.
Proof.
  revert n; induction s; simpl; intros n H; [discriminate|].
  destruct (Ascii.eqb a c); [exact H|].
  destruct (find_char c s) as [n0|] eqn:E; [|discriminate].
  rewrite (IHs n0 eq_refl). exact H.
Qed.

Lemma rfind_char_none c s : has_char c s = false -> rfind_char c s = None.
Proof.
  induction s; simpl; intros H; [reflexivity|].
  apply orb_false_iff in H as [H1 H2]. rewrite (IHs H2), H1. reflexivity.
Qed.

Lemma rfind_char_app_r c s S :
  has_char c S = false -> rfind_char c (s ++ S) = rfind_char c s.
Proof.
  induction s; simpl; intros H.
  - apply rfind_char_none. exact H.
  - rewrite (IHs H). reflexivity.
Qed.

Lemma rfind_char_app_l c P s n :
  rfind_char c s = Some n -> rfind_char c (P ++ s) = Some (String.length P + n).
Proof. induction P; simpl; intros H; [exact H|]. rewrite (IHP H). reflexivity. Qed.

Lemma rfind_char_lt c s n : rfind_char c s = Some n -> n < String.length s.
Proof.
  revert n; induction s; simpl; intros n H; [discriminate|].
  destruct (rfind_char c s) eqn:E.
  - injection H as <-. specialize (IHs _ eq_refl). lia.
  - destruct (Ascii.eqb a c); [injection H as <-; lia|discriminate].
Qed.

Lemma substring_app_l P s n m :
  substring (String.length P + n) m (P ++ s) = substring n m s.
Proof. induction P; simpl; auto. Qed.

Lemma substring_app_r s S n m :
  n + m <= String.length s -> substring n m (s ++ S) = substring n m s.
Proof.
  revert n m; induction s; simpl; intros n m H.
  - assert (n = 0) by lia. assert (m = 0) by lia. subst. destruct S; reflexivity.
  - destruct n, m; simpl; [reflexivity| |apply IHs; lia|apply IHs; lia].
    f_equal. apply IHs. lia.
Qed.

(** Text without braces before and after a block does not change the
    slice [extract_block] takes. *)
Lemma extract_block_wrap P S J st en :
  has_char "{"%char P = false -> has_char "}"%char S = false ->
  find_char "{"%char J = Some st -> rfind_char "}"%char J = Some en -> st < en ->
  extract_block (P ++ (J ++ S)) = extract_block J.
Proof.
  intros HP HS Hf Hr Hlt. unfold extract_block.
  rewrite (find_char_app_l _ _ _ HP), (find_char_app_r _ _ _ _ Hf). simpl option_map.
  rewrite (rfind_char_app_l _ P (J ++ S) en)
    by (rewrite (rfind_char_app_r _ _ _ HS); exact Hr).
  rewrite Hf, Hr.
  assert (Hb : Nat.ltb st en = true) by (apply Nat.ltb_lt; lia).
  assert (Hb' : Nat.ltb (String.length P + st) (String.length P + en) = true)
    by (apply Nat.ltb_lt; lia).
  rewrite Hb, Hb'.
  replace (String.length P + en + 1 - (String.length P + st)) with (en + 1 - st) by lia.
  rewrite substring_app_l. apply substring_app_r.
  pose proof (rfind_char_lt _ _ _ Hr). lia.
Qed.

Lemma fence_split tag J :
  fence tag J = (("```" ++ tag ++ newline) ++ (J ++ (newline ++ "```"))).
Proof. unfold fence. rewrite !str_app_assoc. reflexivity. Qed.

Lemma braced_find lead body trail :
  no_brace lead = true ->
  find_char "{"%char (lead ++ "{" ++ body ++ "}" ++ trail) = Some (String.length lead).
Proof.
  intros H. unfold no_brace in H. apply andb_true_iff in H as [H1 _].
  apply negb_true_iff in H1. rewrite (find_char_app_l _ _ _ H1). simpl.
  rewrite Nat.add_0_r. reflexivity.
Qed.

Lemma braced_rfind lead body trail :
  no_brace trail = true ->
  rfind_char "}"%char (lead ++ "{" ++ body ++ "}" ++ trail) =
  Some (String.length lead + S (String.length body + 0)).
Proof.
  intros H. unfold no_brace in H. apply andb_true_iff in H as [_ H2].
  apply negb_true_iff in H2. apply rfind_char_app_l.
  change ("{" ++ body ++ "}" ++ trail) with (String "{"%char (body ++ String "}"%char trail)).
  cbn [rfind_char].
  rewrite (rfind_char_app_l _ body (String "}"%char trail) 0); [reflexivity|].
  cbn [rfind_char]. rewrite (rfind_char_none _ _ H2). reflexivity.
Qed.

End ScenesProofs.

Module ScenesClaims.
Import Scenes ScenesProofs.
Local Open Scope nat_scope.

(** C9: a reply holding one JSON object [lead ++ "{" ++ body ++ "}" ++ trail]
    (with [lead] and [trail], e.g. whitespace, free of braces) parses in
    [generate_scenes] to the same result whether or not it is wrapped in a
    triple-backtick code fence, with or without a brace-free language tag:
    the find("{")/rfind("}") slice cuts the fence away. This holds for any
    JSON decoder [loads]. The fence stripping of
    [LLMClient.extract_json_response] (llm_client.py) is syntactically
    broken in the source (an unterminated string literal on its
    [startswith] line) and is not modelled. *)
Theorem fenced_scenes_parse_same (loads : string -> option json)
    (tag lead body trail : string) :
  no_brace tag = true -> no_brace lead = true -> no_brace trail = true ->
  parse_scenes loads (fence tag (lead ++ "{" ++ body ++ "}" ++ trail)) =
  parse_scenes loads (lead ++ "{" ++ body ++ "}" ++ trail).
Proof.
  intros Ht Hl Htr. unfold parse_scenes. rewrite fence_split.
  rewrite (extract_block_wrap _ _ _ (String.length lead)
             (String.length lead + S (String.length body + 0))).
  - reflexivity.
  - apply andb_true_iff in Ht as [Ht1 _]. apply negb_true_iff in Ht1.
    rewrite !has_char_app, Ht1. reflexivity.
  - reflexivity.
  - apply braced_find. exact Hl.
  - apply braced_rfind. exact Htr.
  - lia.
Qed.

Lemma fenced_scenes_parse_same_witness :
  (parse_scenes toy_loads (fence "json" (" " ++ "{" ++ scene_doc_body ++ "}" ++ newline)) =
   parse_scenes toy_loads (" " ++ "{" ++ scene_doc_body ++ "}" ++ newline)) /\
  (parse_scenes toy_loads (" " ++ "{" ++ scene_doc_body ++ "}" ++ newline) =
   Some [JStr "Opening shot"]).
Proof.
  split.
  - apply (fenced_scenes_parse_same toy_loads "json" " " scene_doc_body newline);
      vm_compute; reflexivity.
  - vm_compute. reflexivity.
Defined.

End ScenesClaims.

(* ------------------------------------------------------------------ *)
(** ** Lemmas on [str.split], [" ".join], slicing and [str.strip] *)

Module StrProofs.
Import Py.
Local Open Scope nat_scope.


Lemma app_assoc_s (a b c : string) : ((a ++ b) ++ c) = (a ++ (b ++ c)).
Proof. induction a; simpl; congruence. Qed.

Lemma app_nil_s (a : string) : (a ++ "") = a.
Proof. induction a; simpl; congruence. Qed.

Lemma length_app_s (a b : string) : String.length (a ++ b) = String.length a + String.length b.
Proof. induction a; simpl; auto. Qed.

Lemma is_emptyb_snoc (cur : string) (c : ascii) : is_emptyb (cur ++ String c "") = false.
Proof. destruct cur; reflexivity. Qed.

Lemma all_chars_app p a b : all_chars p (a ++ b) = all_chars p a && all_chars p b.
Proof. induction a; simpl; [reflexivity|]. rewrite IHa, andb_assoc. reflexivity. Qed.

(** A space separates: the words of [a ++ c ++ b] are those of [a], then those of [b]. *)
Lemma split_go_app_space (a b cur : string) (c : ascii) :
  is_space c = true ->
  split_go (a ++ String c b) cur = (split_go a cur ++ split_go b "")%list.
Proof.
  intros Hc. revert cur. induction a as [|x a IH]; intros cur; simpl.
  - rewrite Hc. destruct (is_emptyb cur); reflexivity.
  - destruct (is_space x).
    + destruct (is_emptyb cur); [apply IH|]. rewrite IH. reflexivity.
    + apply IH.
Qed.

Lemma split_go_spaces (t cur : string) :
  all_chars is_space t = true ->
  split_go t cur = if is_emptyb cur then [] else [cur].
Proof.
  revert cur. induction t as [|x t IH]; intros cur H; simpl in *; [reflexivity|].
  apply andb_prop in H as [Hx Ht]. rewrite Hx, (IH "" Ht). simpl.
  destruct (is_emptyb cur); reflexivity.
Qed.

Lemma split_go_app_spaces (a t cur : string) :
  all_chars is_space t = true -> split_go (a ++ t) cur = split_go a cur.
Proof.
  intros Ht. revert cur. induction a as [|x a IH]; intros cur; simpl.
  - apply split_go_spaces. exact Ht.
  - destruct (is_space x); [destruct (is_emptyb cur); rewrite ?IH; reflexivity|apply IH].
Qed.

Lemma split_go_word (w cur : string) :
  word w -> split_go w cur = [cur ++ w].
Proof.
  revert cur. induction w as [|c r IH]; intros cur [Hne Hw]; [congruence|].
  simpl in Hw. apply andb_prop in Hw as [Hc Hr]. apply negb_true_iff in Hc.
  simpl. rewrite Hc. destruct r as [|c' r'].
  - simpl. rewrite is_emptyb_snoc. reflexivity.
  - rewrite IH; [|split; [discriminate|exact Hr]].
    rewrite app_assoc_s. reflexivity.
Qed.

Lemma split_word (w : string) : word w -> split w = [w].
Proof. intros H. unfold split. rewrite split_go_word by exact H. reflexivity. Qed.

Lemma split_empty : split "" = [].
Proof. reflexivity. Qed.

(** [" ".join] then [split()] gives back the words of the pieces. *)
Lemma split_join (ws : list string) :
  split (join " " ws) = concat (map split ws).
Proof.
  induction ws as [|x ws IH]; [reflexivity|].
  destruct ws as [|y ws].
  - simpl. rewrite app_nil_r. reflexivity.
  - change (join " " (x :: y :: ws)) with (x ++ String " "%char (join " " (y :: ws))).
    unfold split in *. rewrite split_go_app_space by reflexivity.
    rewrite IH. reflexivity.
Qed.

Lemma split_go_words (s cur : string) :
  all_chars (fun c => negb (is_space c)) cur = true ->
  Forall word (split_go s cur).
Proof.
  revert cur. induction s as [|c r IH]; intros cur Hcur; simpl.
  - destruct cur as [|x cur']; constructor; [|constructor].
    split; [discriminate|exact Hcur].
  - destruct (is_space c) eqn:Hc.
    + destruct cur as [|x cur']; simpl; [apply IH; reflexivity|].
      constructor; [split; [discriminate|exact Hcur]|apply IH; reflexivity].
    + apply IH. rewrite all_chars_app, Hcur. simpl. rewrite Hc. reflexivity.
Qed.

Lemma split_words (s : string) : Forall word (split s).
Proof. apply split_go_words. reflexivity. Qed.

Lemma concat_map_split_words (ws : list string) :
  Forall word ws -> concat (map split ws) = ws.
Proof.
  induction 1 as [|w ws Hw _ IH]; [reflexivity|].
  simpl. rewrite split_word by exact Hw. simpl. f_equal. exact IH.
Qed.

Lemma split_join_words (ws : list string) :
  Forall word ws -> split (join " " ws) = ws.
Proof. intros H. rewrite split_join. apply concat_map_split_words. exact H. Qed.

Lemma concat_map_split_blanks (k : nat) : concat (map split (repeat "" k)) = [].
Proof. induction k; simpl; auto. Qed.

(** Padding with empty strings adds no word. *)
Lemma split_join_padded (ws : list string) (k : nat) :
  Forall word ws -> split (join " " (ws ++ repeat "" k)) = ws.
Proof.
  intros H. rewrite split_join, map_app, concat_app, concat_map_split_blanks, app_nil_r.
  apply concat_map_split_words. exact H.
Qed.

Lemma split_go_nonempty (s cur : string) :
  is_emptyb cur = false -> 1 <= List.length (split_go s cur).
Proof.
  revert cur. induction s as [|c r IH]; intros cur H; simpl.
  - rewrite H. simpl. lia.
  - destruct (is_space c); [rewrite H; simpl; lia|].
    apply IH. apply is_emptyb_snoc.
Qed.

(** A prefix of a string has no more words than the string. *)
Lemma split_go_take (n : nat) (s cur : string) :
  List.length (split_go (take n s) cur) <= List.length (split_go s cur).
Proof.
  unfold take. revert n cur. induction s as [|c r IH]; intros n cur.
  - destruct n; simpl; lia.
  - destruct n as [|n].
    + simpl. destruct (is_emptyb cur) eqn:E; simpl; [lia|].
      destruct (is_space c); [simpl; lia|].
      apply split_go_nonempty. apply is_emptyb_snoc.
    + simpl. destruct (is_space c); [|apply IH].
      destruct (is_emptyb cur); simpl; [apply IH|]. specialize (IH n ""). lia.
Qed.

Lemma split_take (n : nat) (s : string) :
  List.length (split (take n s)) <= List.length (split s).
Proof. apply split_go_take. Qed.

(** [lstrip] drops a prefix of spaces. *)
Lemma lstrip_decomp (s : string) :
  exists p, s = p ++ lstrip s /\ all_chars is_space p = true.
Proof.
  induction s as [|c r IH]; simpl.
  - exists "". split; reflexivity.
  - destruct (is_space c) eqn:Hc.
    + destruct IH as [p [Hp Hsp]]. exists (String c p). simpl. rewrite Hc, Hsp.
      split; [congruence|reflexivity].
    + exists "". split; reflexivity.
Qed.

Lemma split_go_lstrip (s : string) : split_go (lstrip s) "" = split_go s "".
Proof.
  induction s as [|c r IH]; simpl; [reflexivity|].
  destruct (is_space c) eqn:Hc; simpl; [exact IH|rewrite Hc; reflexivity].
Qed.

Lemma list_ascii_app (a b : string) :
  list_ascii_of_string (a ++ b) = (list_ascii_of_string a ++ list_ascii_of_string b)%list.
Proof. induction a; simpl; congruence. Qed.

Lemma string_of_list_app (l1 l2 : list ascii) :
  string_of_list_ascii (l1 ++ l2) = string_of_list_ascii l1 ++ string_of_list_ascii l2.
Proof. induction l1; simpl; congruence. Qed.

Lemma rev_string_app (a b : string) :
  rev_string (a ++ b) = rev_string b ++ rev_string a.
Proof.
  unfold rev_string. rewrite list_ascii_app, rev_app_distr, string_of_list_app. reflexivity.
Qed.

Lemma rev_string_involutive (s : string) : rev_string (rev_string s) = s.
Proof.
  unfold rev_string. rewrite list_ascii_of_string_of_list_ascii, rev_involutive.
  apply string_of_list_ascii_of_string.
Qed.

Lemma all_chars_forallb p s : all_chars p s = forallb p (list_ascii_of_string s).
Proof. induction s; simpl; congruence. Qed.

Lemma all_chars_rev p s : all_chars p (rev_string s) = all_chars p s.
Proof.
  rewrite !all_chars_forallb. unfold rev_string. rewrite list_ascii_of_string_of_list_ascii.
  destruct (forallb p (list_ascii_of_string s)) eqn:E.
  - rewrite forallb_forall in *. intros x Hx. apply E. apply in_rev. exact Hx.
  - apply not_true_iff_false. intros H. apply not_true_iff_false in E. apply E.
    rewrite forallb_forall in *. intros x Hx. apply H. apply in_rev. rewrite rev_involutive. exact Hx.
Qed.

(** Dropping trailing spaces: [x = rstrip(x) ++ t] with [t] spaces. *)
Lemma rstrip_decomp (x : string) :
  exists t, x = rev_string (lstrip (rev_string x)) ++ t /\ all_chars is_space t = true.
Proof.
  destruct (lstrip_decomp (rev_string x)) as [p [Hp Hsp]].
  exists (rev_string p). split.
  - rewrite <- (rev_string_involutive x) at 1. rewrite Hp at 1.
    rewrite rev_string_app. reflexivity.
  - rewrite all_chars_rev. exact Hsp.
Qed.

(** [strip] removes spaces at both ends only. *)
Lemma strip_decomp (s : string) :
  exists p t, s = p ++ strip s ++ t /\ all_chars is_space p = true /\ all_chars is_space t = true.
Proof.
  destruct (lstrip_decomp s) as [p [Hp Hsp]].
  destruct (rstrip_decomp (lstrip s)) as [t [Ht Hst]].
  exists p, t. unfold strip. split; [|split; assumption].
  transitivity (p ++ lstrip s); [exact Hp|]. f_equal. exact Ht.
Qed.

Lemma split_strip (s : string) : split (strip s) = split s.
Proof.
  unfold split. destruct (rstrip_decomp (lstrip s)) as [t [Ht Hst]].
  rewrite <- (split_go_lstrip s).
  transitivity (split_go (rev_string (lstrip (rev_string (lstrip s))) ++ t) "").
  - rewrite split_go_app_spaces by exact Hst. reflexivity.
  - rewrite <- Ht. reflexivity.
Qed.

Lemma lstrip_spaces (s : string) : all_chars is_space s = true -> lstrip s = "".
Proof.
  induction s as [|c r IH]; simpl; intros H; [reflexivity|].
  apply andb_prop in H as [Hc Hr]. rewrite Hc. apply IH. exact Hr.
Qed.

(** [s.strip()] is empty exactly when [s] is all spaces. *)
Lemma strip_empty_iff (s : string) : strip s = "" <-> all_chars is_space s = true.
Proof.
  split.
  - intros H. destruct (strip_decomp s) as [p [t [Hs [Hp Ht]]]].
    rewrite H in Hs. simpl in Hs. rewrite Hs, all_chars_app, Hp, Ht. reflexivity.
  - intros H. unfold strip. rewrite (lstrip_spaces s H). reflexivity.
Qed.

Lemma strip_strip_nonempty (s : string) :
  is_emptyb (strip s) = false -> is_emptyb (strip (strip s)) = false.
Proof.
  intros H. destruct (is_emptyb (strip (strip s))) eqn:E; [|reflexivity].
  exfalso. destruct (strip (strip s)) eqn:E2; [|discriminate].
  apply strip_empty_iff in E2.
  destruct (strip_decomp s) as [p [t [Hs [Hp Ht]]]].
  assert (Hall : all_chars is_space s = true)
    by (rewrite Hs, !all_chars_app, Hp, E2, Ht; reflexivity).
  apply strip_empty_iff in Hall. rewrite Hall in H. discriminate.
Qed.

End StrProofs.

(* ------------------------------------------------------------------ *)
(** ** Facts about [RobustMarketingGenerator] *)

Module OllamaFacts.
Import Py Ollama StrProofs.
Local Open Scope nat_scope.

Lemma Forall_firstn {A} (P : A -> Prop) (n : nat) (l : list A) :
  Forall P l -> Forall P (firstn n l).
Proof.
  revert n. induction l as [|x l IH]; intros n H; destruct n; simpl; auto.
  inversion H; subst. constructor; auto.
Qed.

(** Extra X1: the narrative [_generate_once] returns consists of exactly
    the first 150 words of the parsed narrative: longer ones are cut,
    shorter ones keep their words (the padding adds none). *)
Theorem narrative_words_first_150 (narrative : string) :
  split (enforce_narrative narrative) = firstn 150 (split narrative).
Proof.
  unfold enforce_narrative. pose proof (split_words narrative) as Hw.
  destruct (150 <? List.length (split narrative)) eqn:E1.
  - apply split_join_words. apply Forall_firstn. exact Hw.
  - apply Nat.ltb_ge in E1. rewrite firstn_all2 by exact E1.
    destruct (List.length (split narrative) <? 100); [|reflexivity].
    rewrite split_strip. apply split_join_padded. exact Hw.
Qed.

(** Extra X2: the tagline [_generate_once] returns has at most
    [min 15 n] words, [n] the word count of the parsed tagline; when
    [n >= 10] its words are exactly the first 15 words of the parsed
    tagline. *)
Theorem tagline_words_bounded (tagline : string) :
  List.length (split (enforce_tagline tagline)) <= Nat.min 15 (List.length (split tagline)) /\
  (10 <= List.length (split tagline) ->
   split (enforce_tagline tagline) = firstn 15 (split tagline)).
Proof.
  unfold enforce_tagline. pose proof (split_words tagline) as Hw.
  remember (split tagline) as ws eqn:Hws.
  destruct (List.length ws <? 10) eqn:E2.
  - apply Nat.ltb_lt in E2. split; [|lia].
    rewrite split_strip. eapply Nat.le_trans; [apply split_take|].
    rewrite split_join_padded by exact Hw. lia.
  - apply Nat.ltb_ge in E2.
    destruct (15 <? List.length ws) eqn:E1.
    + apply Nat.ltb_lt in E1.
      rewrite split_join_words by (apply Forall_firstn; exact Hw).
      rewrite length_firstn. split; [lia|reflexivity].
    + apply Nat.ltb_ge in E1. rewrite <- Hws, firstn_all2 by exact E1.
      split; [lia|reflexivity].
Qed.

Lemma splitlines_spaces (n : nat) (s cur : string) :
  String.length s <= n -> all_chars is_space s = true -> all_chars is_space cur = true ->
  Forall (fun l => all_chars is_space l = true) (splitlines_go s cur).
Proof.
  revert s cur. induction n as [|n IH]; intros s cur Hlen Hs Hcur.
  - destruct s; [|simpl in Hlen; lia]. simpl.
    destruct (is_emptyb cur); constructor; auto.
  - destruct s as [|c r]; simpl.
    + destruct (is_emptyb cur); constructor; auto.
    + simpl in Hs, Hlen. apply andb_prop in Hs as [Hc Hr].
      destruct (nat_of_ascii c =? 13).
      * destruct r as [|c2 r2].
        -- constructor; auto.
        -- simpl in Hr, Hlen. apply andb_prop in Hr as [Hc2 Hr2].
           destruct (nat_of_ascii c2 =? 10); constructor; auto;
             apply IH; simpl; auto; try lia; rewrite Hc2, Hr2; reflexivity.
      * destruct (is_linebreak c); [constructor; auto; apply IH; auto; lia|].
        apply IH; [lia|exact Hr|]. rewrite all_chars_app, Hcur. simpl. rewrite Hc. reflexivity.
Qed.

Lemma scan_lines_blank (lines : list string) (acc : string * string) :
  Forall (fun l => all_chars is_space l = true) lines ->
  fold_left scan_line lines acc = acc.
Proof.
  intros Hls. revert acc. induction Hls as [|l lines Hl _ IH]; intros acc; simpl; [reflexivity|].
  unfold scan_line at 2. apply strip_empty_iff in Hl. rewrite Hl. simpl. apply IH.
Qed.

Lemma blank_lines_stripped (lines : list string) :
  Forall (fun l => all_chars is_space l = true) lines ->
  filter (fun ln => negb (is_emptyb ln)) (map strip lines) = [].
Proof.
  induction 1 as [|l lines Hl _ IH]; [reflexivity|].
  simpl. apply strip_empty_iff in Hl. rewrite Hl. exact IH.
Qed.

Lemma parse_content_blank (content : string) :
  all_chars is_space content = true -> parse_content content = ("", "").
Proof.
  intros H.
  assert (Hl : Forall (fun l => all_chars is_space l = true) (splitlines content))
    by (apply (splitlines_spaces (String.length content)); auto).
  unfold parse_content. rewrite (scan_lines_blank _ _ Hl). simpl.
  rewrite (blank_lines_stripped _ Hl). reflexivity.
Qed.

(** Extra X3: when Ollama answers 200 with a reply that is empty or only
    whitespace, [_generate_once] still reports success, with an empty
    tagline and an empty narrative. *)
Theorem blank_reply_success (backend : string -> string -> http_response)
    (product_input model_name content : string) :
  backend model_name (build_prompt product_input) = Response 200 content ->
  all_chars is_space content = true ->
  generate_once backend product_input model_name = GenOk "" "" model_name.
Proof.
  intros Hb Hc. unfold generate_once. rewrite Hb. simpl.
  rewrite (parse_content_blank content Hc). reflexivity.
Qed.

Lemma blank_reply_success_witness :
  generate_once (fun _ _ => Response 200 "  
 ") "Smart water bottle" "llama2" = GenOk "" "" "llama2".
Proof. apply (blank_reply_success (fun _ _ => Response 200 "  
 ") "Smart water bottle" "llama2" "  
 "); reflexivity. Defined.

Lemma generate_once_model (b : string -> string -> http_response) (p m t n m' : string) :
  generate_once b p m = GenOk t n m' -> m' = m.
Proof.
  unfold generate_once. destruct (b m (build_prompt p)) as [code content|e]; [|discriminate].
  destruct (negb (code =? 200)%Z); [discriminate|].
  destruct (parse_content content). intros H. injection H. auto.
Qed.

Lemma try_models_ok (b : string -> string -> http_response) (p : string) (ms : list string) t n m :
  try_models b p ms = GenOk t n m <->
  exists pre post, ms = (pre ++ m :: post)%list /\
    Forall (fun x => success (generate_once b p x) = false) pre /\
    generate_once b p m = GenOk t n m.
Proof.
  split.
  - induction ms as [|x ms IH]; simpl; [discriminate|].
    destruct (success (generate_once b p x)) eqn:Hs.
    + intros H. pose proof (generate_once_model _ _ _ _ _ _ H); subst.
      exists [], ms. split; [reflexivity|]. split; [constructor|exact H].
    + intros H. assert (H' : try_models b p ms = GenOk t n m)
        by (destruct (match status (generate_once b p x) with
                      | Some st => (st =? 500)%Z | None => false end); exact H).
      destruct (IH H') as [pre [post [-> [Hf Hm]]]].
      exists (x :: pre), post. split; [reflexivity|]. split; [constructor; auto|exact Hm].
  - intros [pre [post [-> [Hf Hm]]]]. induction Hf as [|x pre Hx _ IH]; simpl.
    + rewrite Hm. reflexivity.
    + rewrite Hx. destruct (match status (generate_once b p x) with
                            | Some st => (st =? 500)%Z | None => false end); exact IH.
Qed.

Lemma try_models_all_fail (b : string -> string -> http_response) (p : string) (ms : list string) :
  Forall (fun x => success (generate_once b p x) = false) ms ->
  try_models b p ms = GenFail "All generation attempts failed with available models." None.
Proof.
  induction 1 as [|x ms Hx _ IH]; simpl; [reflexivity|].
  rewrite Hx. destruct (match status (generate_once b p x) with
                        | Some st => (st =? 500)%Z | None => false end); exact IH.
Qed.

(** Extra X4: with the service up and a non-empty try order,
    [generate_storyline] returns the result of the first model whose
    attempt succeeds (tried in order, every earlier one having failed),
    and the fixed "All generation attempts failed" error when every model
    fails, whatever the failures were. *)
Theorem generate_storyline_first_success (b : string -> string -> http_response)
    (m0 : string) (ms : list string) (p : string) :
  (forall t n m,
     generate_storyline b true (m0 :: ms) p = GenOk t n m <->
     exists pre post, m0 :: ms = (pre ++ m :: post)%list /\
       Forall (fun x => success (generate_once b p x) = false) pre /\
       generate_once b p m = GenOk t n m) /\
  (Forall (fun x => success (generate_once b p x) = false) (m0 :: ms) ->
   generate_storyline b true (m0 :: ms) p =
   GenFail "All generation attempts failed with available models." None).
Proof.
  split.
  - intros t n m. apply try_models_ok.
  - apply try_models_all_fail.
Qed.

End OllamaFacts.

(* ------------------------------------------------------------------ *)
(** ** Facts about [_resolve_models] *)

Module ResolveFacts.
Import Resolve.

Lemma mem_In (w : string) (ws : list string) : Feat.mem w ws = true <-> In w ws.
Proof.
  unfold Feat.mem. rewrite existsb_exists. split.
  - intros [x [Hx He]]. apply String.eqb_eq in He. subst. exact Hx.
  - intros H. exists w. split; [exact H|apply String.eqb_refl].
Qed.

Lemma mem_false (w : string) (ws : list string) : Feat.mem w ws = false <-> ~ In w ws.
Proof. rewrite <- mem_In. destruct (Feat.mem w ws); split; congruence. Qed.

Lemma fold_add_local (l acc : list string) :
  NoDup acc ->
  NoDup (fold_left add_local l acc) /\
  (forall m, In m (fold_left add_local l acc) <-> In m acc \/ In m l) /\
  exists rest, fold_left add_local l acc = (acc ++ rest)%list /\
    Forall (fun m => ~ In m acc) rest.
Proof.
  revert acc. induction l as [|x l IH]; intros acc Hnd; simpl.
  - split; [exact Hnd|]. split; [intros m; tauto|].
    exists []. rewrite app_nil_r. split; [reflexivity|constructor].
  - destruct (Feat.mem x acc) eqn:Hx.
    + assert (Ha : add_local acc x = acc) by (unfold add_local; rewrite Hx; reflexivity).
      rewrite Ha. apply mem_In in Hx. destruct (IH acc Hnd) as [H1 [H2 H3]].
      split; [exact H1|]. split; [|exact H3].
      intros m. rewrite H2. split; [tauto|]. intros [H|[<-|H]]; tauto.
    + assert (Ha : add_local acc x = (acc ++ [x])%list)
        by (unfold add_local; rewrite Hx; reflexivity).
      rewrite Ha. apply mem_false in Hx.
      assert (Hnd' : NoDup (acc ++ [x])%list).
      { apply NoDup_app; [exact Hnd|repeat constructor; intros []|].
        intros y Hy [<-|[]]. contradiction. }
      destruct (IH _ Hnd') as [H1 [H2 [rest [Hr Hf]]]].
      split; [exact H1|]. split.
      * intros m. rewrite H2, in_app_iff. simpl. tauto.
      * exists (x :: rest). rewrite Hr, <- app_assoc. split; [reflexivity|].
        constructor; [exact Hx|].
        eapply Forall_impl; [|exact Hf]. intros m Hm Hin. apply Hm. apply in_app_iff. auto.
Qed.

Lemma preferred_phase (local_models : list string) :
  fold_left (add_preferred local_models) preferred_models [] =
  filter (fun p => Feat.mem p local_models) preferred_models.
Proof.
  unfold preferred_models, add_preferred. simpl.
  destruct (Feat.mem "llama2" local_models), (Feat.mem "llama3.2:1b" local_models);
    reflexivity.
Qed.

(** Extra X5: the try order built by [_resolve_models] has no duplicate,
    holds exactly the models of the last listing, and starts with the
    preferred models that are listed, in preference order ([llama2]
    before [llama3.2:1b]); no preferred model occurs after that prefix. *)
Theorem try_order_shape (local_models : list string) :
  NoDup (build_try_order local_models) /\
  (forall m, In m (build_try_order local_models) <-> In m local_models) /\
  exists rest,
    build_try_order local_models =
      (filter (fun p => Feat.mem p local_models) preferred_models ++ rest)%list /\
    Forall (fun m => ~ In m preferred_models) rest.
Proof.
  unfold build_try_order. rewrite preferred_phase.
  set (acc := filter (fun p => Feat.mem p local_models) preferred_models).
  assert (Hnd : NoDup acc).
  { apply NoDup_filter. unfold preferred_models.
    constructor; [simpl; intros [H|[]]; discriminate|].
    constructor; [intros []|constructor]. }
  destruct (fold_add_local local_models acc Hnd) as [H1 [H2 [rest [Hr Hf]]]].
  split; [exact H1|]. split.
  - intros m. rewrite H2. unfold acc. rewrite filter_In, mem_In. tauto.
  - exists rest. split; [exact Hr|].
    assert (Hsub : forall m, In m local_models -> In m preferred_models -> In m acc)
      by (intros m Hl Hp; unfold acc; apply filter_In; split; [exact Hp|apply mem_In; exact Hl]).
    apply Forall_forall. intros m Hm Hp.
    assert (Hin : In m (fold_left add_local local_models acc))
      by (rewrite Hr; apply in_app_iff; right; exact Hm).
    apply H2 in Hin. rewrite Forall_forall in Hf.
    destruct Hin as [Hin|Hin]; [exact (Hf m Hm Hin)|exact (Hf m Hm (Hsub m Hin Hp))].
Qed.

(** Extra X6: [_resolve_models] asks the server to pull a model only
    when [llama3.2:1b] is missing from the first listing, and then pulls
    exactly [llama3.2:1b] ([llama2] is never pulled); when [llama3.2:1b]
    is listed, the try order is built from that first listing. *)
Theorem resolve_models_pulls {Srv : Type} (list_models : Srv -> list string)
    (pull_model : string -> Srv -> bool * Srv) (s : Srv) :
  snd (resolve_models list_models pull_model s) =
    (if Feat.mem "llama3.2:1b" (list_models s) then [] else ["llama3.2:1b"]) /\
  (Feat.mem "llama3.2:1b" (list_models s) = true ->
   fst (resolve_models list_models pull_model s) = build_try_order (list_models s)).
Proof.
  unfold resolve_models, preferred_models. simpl pull_loop.
  rewrite andb_false_r, andb_true_r.
  destruct (Feat.mem "llama3.2:1b" (list_models s)) eqn:E; simpl.
  - split; reflexivity.
  - destruct (pull_model "llama3.2:1b" s) as [ok s'].
    destruct ok; simpl; split; [reflexivity|discriminate|reflexivity|discriminate].
Qed.

End ResolveFacts.

(* ------------------------------------------------------------------ *)
(** ** Facts about the two services and their caches *)

Module PipelineFacts.
Import Feat Pipeline FeatProofs.

Lemma value_error_iff {Resp SR : Type} (E : collab Resp SR) cache p m :
  is_value_error (fst (extract_features E cache p m)) =
  Py.is_emptyb (Py.strip p) || (m <? 1)%Z || (50 <? m)%Z || is_none (feature_cache_key E p m).
Proof.
  unfold extract_features.
  destruct (Py.is_emptyb (Py.strip p)); [reflexivity|]. simpl orb.
  destruct ((m <? 1)%Z || (50 <? m)%Z); [reflexivity|]. simpl orb.
  destruct (feature_cache_key E p m) as [k|]; [|reflexivity].
  destruct (cache_hit cache k); [reflexivity|].
  destruct (extraction_try E p m) as [fs|e]; [reflexivity|].
  destruct e; reflexivity.
Qed.

Lemma story_value_error_iff {Resp SR : Type} (E : collab Resp SR) cache p fs tone length audience :
  is_value_error (fst (generate_storyline E cache p fs tone length audience)) =
  Py.is_emptyb (Py.strip p) || is_nil fs || is_none (story_cache_key E p fs tone length audience).
Proof.
  unfold generate_storyline.
  destruct (Py.is_emptyb (Py.strip p)); [reflexivity|]. simpl orb.
  destruct (is_nil fs); [reflexivity|]. simpl orb.
  destruct (story_cache_key E p fs tone length audience) as [k|]; [|reflexivity].
  destruct (cache_hit cache k); [reflexivity|].
  destruct (storyline_try E p fs tone length audience) as [s|e]; [reflexivity|].
  destruct e; reflexivity.
Qed.

(** Extra X7: an empty [TTLCache] is falsy, so a service created with
    one (as every [FeatureExtractor] and [StoryGenerator] is) never reads
    or writes it: after any call the cache is still empty, and the call
    returns what it returns with caching disabled. *)
Theorem empty_cache_stays_empty {Resp SR : Type} (E : collab Resp SR) :
  (forall p m,
     extract_features E (Some []) p m = (fst (extract_features E None p m), Some [])) /\
  (forall p fs tone length audience,
     generate_storyline E (Some []) p fs tone length audience =
     (fst (generate_storyline E None p fs tone length audience), Some [])).
Proof.
  split.
  - intros p m. unfold extract_features, cache_hit, write_cache. simpl.
    destruct (Py.is_emptyb (Py.strip p)); [reflexivity|].
    destruct ((m <? 1)%Z || (50 <? m)%Z); [reflexivity|].
    destruct (feature_cache_key E p m); [|reflexivity].
    destruct (extraction_try E p m); reflexivity.
  - intros p fs tone length audience. unfold generate_storyline, cache_hit, write_cache. simpl.
    destruct (Py.is_emptyb (Py.strip p)); [reflexivity|].
    destruct (is_nil fs); [reflexivity|].
    destruct (story_cache_key E p fs tone length audience); [|reflexivity].
    destruct (storyline_try E p fs tone length audience); reflexivity.
Qed.

Lemma length_renumber (i : Z) (l : list feature) : List.length (renumber i l) = List.length l.
Proof. revert i. induction l; intros i; simpl; auto. Qed.

Lemma rank_features_ranked (l : list feature) :
  ranked (rank_features l) /\ List.length (rank_features l) = List.length l.
Proof.
  unfold ranked, rank_features.
  assert (Hl : List.length (renumber 1 (sort l)) = List.length l)
    by (rewrite length_renumber; symmetry; apply Permutation_length, sort_perm).
  split; [|exact Hl].
  pose proof (renumber_ranks 1 (sort l)) as H. simpl Z.of_nat in H.
  rewrite H, length_renumber. reflexivity.
Qed.

Lemma dedupe_go_length (seen : list string) (l : list feature) :
  (List.length (dedupe_go seen l) <= List.length l)%nat.
Proof.
  revert seen. induction l as [|f l IH]; intros seen; simpl; [lia|].
  destruct (existsb _ seen); simpl; [specialize (IH seen); lia|].
  specialize (IH (normalized_name f :: seen)). lia.
Qed.

Lemma convert_items_length {Resp SR : Type} (E : collab Resp SR) (idx : nat) (items : list json) :
  (List.length (convert_items E idx items) <= List.length items)%nat.
Proof.
  revert idx. induction items as [|it items IH]; intros idx; simpl; [lia|].
  destruct it; try (specialize (IH (S idx)); lia).
  destruct (to_feature E idx kvs); simpl; specialize (IH (S idx)); lia.
Qed.

Lemma convert_items_strs {Resp SR : Type} (E : collab Resp SR) (idx n : nat) (cs : list ascii) :
  convert_items E idx (firstn n (map (fun c => JStr (String c EmptyString)) cs)) = [].
Proof.
  revert idx n. induction cs as [|c cs IH]; intros idx n; destruct n; simpl; auto.
Qed.

Lemma slice_items_length (data : json) (n : nat) items :
  slice_items data n = Some items -> (List.length items <= n)%nat.
Proof.
  destruct data; simpl; intros H; try discriminate; injection H as <-;
    rewrite length_firstn; lia.
Qed.

Lemma extract_ok_bounded {Resp SR : Type} (E : collab Resp SR) cache p m fs :
  (forall k v, feature_cache_key E p m = Some k -> cache_hit cache k = Some v ->
     (List.length v <= Z.to_nat m)%nat /\ ranked v) ->
  fst (extract_features E cache p m) = Ok fs ->
  (List.length fs <= Z.to_nat m)%nat /\ ranked fs.
Proof.
  intros Hc. unfold extract_features.
  destruct (Py.is_emptyb (Py.strip p)); [discriminate|].
  destruct ((m <? 1)%Z || (50 <? m)%Z); [discriminate|].
  destruct (feature_cache_key E p m) as [k|] eqn:Hk; [|discriminate].
  destruct (cache_hit cache k) as [v|] eqn:Hh.
  - simpl. intros H. injection H as <-. exact (Hc k v eq_refl Hh).
  - destruct (extraction_try E p m) as [fs'|e] eqn:Ht; [|discriminate].
    simpl. intros H. injection H as <-.
    unfold extraction_try in Ht.
    destruct (chat_completion E _ _ _) as [resp|]; [|discriminate]. simpl in Ht.
    destruct (extract_json_response E resp) as [data|]; [|discriminate]. simpl in Ht.
    destruct (slice_items data (Z.to_nat m)) as [items|] eqn:Hs; [|discriminate].
    injection Ht as <-.
    destruct (rank_features_ranked (deduplicate_features (convert_items E 0 items))) as [Hr Hl].
    split; [|exact Hr]. rewrite Hl.
    pose proof (slice_items_length _ _ _ Hs).
    pose proof (convert_items_length E 0 items).
    pose proof (dedupe_go_length [] (convert_items E 0 items)).
    unfold deduplicate_features. lia.
Qed.

(** Extra X8: a successful [extract_features] returns at most
    [max_features] features, ranked [1..N] in list order (given that a
    cached entry for the same key, if any, is of that form, as every
    entry this function stores is). *)
Theorem extract_features_bounded {Resp SR : Type} (E : collab Resp SR) cache p m fs :
  (forall k v, feature_cache_key E p m = Some k -> cache_hit cache k = Some v ->
     (List.length v <= Z.to_nat m)%nat /\ ranked v) ->
  fst (extract_features E cache p m) = Ok fs ->
  (List.length fs <= Z.to_nat m)%nat /\ ranked fs.
Proof. exact (extract_ok_bounded E cache p m fs). Qed.

Lemma extract_features_bounded_witness :
  let fs := [mkFeature "f2" "Leak-proof Lid" Spec 1 (4 # 5) "Never spills";
             mkFeature "f1" "Portable Design" Benefit 2 (4 # 5) "Fits in any bag"] in
  fst (extract_features (Api.demo_collab Api.demo_feature_reply) None "Smart water bottle" 2)
    = Ok fs /\
  (List.length fs <= Z.to_nat 2)%nat /\ ranked fs.
Proof.
  cbv zeta. split; [vm_compute; reflexivity|].
  apply (extract_features_bounded (Api.demo_collab Api.demo_feature_reply) None
           "Smart water bottle" 2).
  - intros k v _ H. discriminate H.
  - vm_compute. reflexivity.
Defined.

(** Extra X9: when the LLM's JSON reply is neither a list nor a string
    (e.g. an object wrapping the list), [extract_features] raises
    [LLMError]; when it is a string, it succeeds with no features. *)
Theorem extract_features_reply_shape {Resp SR : Type} (E : collab Resp SR) cache p m k resp data :
  Py.is_emptyb (Py.strip p) = false -> (1 <= m <= 50)%Z ->
  feature_cache_key E p m = Some k -> cache_hit cache k = None ->
  chat_completion E [("system", "You are an expert marketing analyst. Always return valid JSON.");
                     ("user", feature_prompt E p m)] (3 # 10) 2000 = Ok resp ->
  extract_json_response E resp = Ok data ->
  (Story.is_arr data = false -> Story.is_str data = false ->
   exists msg, fst (extract_features E cache p m) = Raise (LLMError msg)) /\
  (forall s, data = JStr s -> fst (extract_features E cache p m) = Ok []).
Proof.
  intros Hp Hm Hk Hh Hc Hx. unfold extract_features. rewrite Hp.
  replace ((m <? 1)%Z || (50 <? m)%Z) with false
    by (symmetry; apply orb_false_iff; split; apply Z.ltb_ge; lia).
  rewrite Hk, Hh. unfold extraction_try. rewrite Hc. simpl. rewrite Hx. simpl.
  split.
  - intros Ha Hs. destruct data; try discriminate; eexists; reflexivity.
  - intros s ->. simpl. rewrite convert_items_strs. reflexivity.
Qed.

Lemma extract_features_reply_shape_witness :
  (Story.is_arr (JObj []) = false -> Story.is_str (JObj []) = false ->
   exists msg, fst (extract_features (Api.demo_collab (JObj [])) (Some [])
                      "Smart water bottle" 5) = Raise (LLMError msg)) /\
  (forall s, JObj [] = JStr s ->
   fst (extract_features (Api.demo_collab (JObj [])) (Some []) "Smart water bottle" 5) = Ok []).
Proof.
  apply (extract_features_reply_shape (Api.demo_collab (JObj [])) (Some [])
           "Smart water bottle" 5 "" tt (JObj [])).
  - vm_compute. reflexivity.
  - lia.
  - reflexivity.
  - vm_compute. reflexivity.
  - reflexivity.
  - reflexivity.
Defined.

End PipelineFacts.

(* ------------------------------------------------------------------ *)
(** ** Facts about the two HTTP endpoints *)

Module ApiFacts.
Import Feat Pipeline Api PipelineFacts.

Lemma fresh_cache_miss {V : Type} (ce : bool) (k : string) :
  cache_hit (@fresh_cache V ce) k = None.
Proof. destruct ce; reflexivity. Qed.

Lemma validate_extract_ok p m p' m' :
  validate_extract_request p m = Some (p', m') ->
  p' = Py.strip p /\ m' = m /\ Py.is_emptyb (Py.strip p') = false /\ (1 <= m' <= 50)%Z.
Proof.
  unfold validate_extract_request.
  destruct (_ || _ || _ || _) eqn:Hc; [discriminate|].
  apply orb_false_iff in Hc as [Hc H2]. apply orb_false_iff in Hc as [_ H1].
  destruct (Py.is_emptyb (Py.strip p)) eqn:He; [discriminate|].
  intros H. injection H as <- <-.
  apply Z.ltb_ge in H1. apply Z.ltb_ge in H2.
  split; [reflexivity|]. split; [reflexivity|]. split; [|lia].
  apply StrProofs.strip_strip_nonempty. exact He.
Qed.

Lemma validate_storyline_ok p tone length audience p' :
  validate_storyline_request p tone length audience = Some p' ->
  p' = Py.strip p /\ Py.is_emptyb (Py.strip p') = false.
Proof.
  unfold validate_storyline_request.
  destruct (_ || _ || _ || _ || _); [discriminate|].
  destruct (Py.is_emptyb (Py.strip p)) eqn:He; [discriminate|].
  intros H. injection H as <-. split; [reflexivity|].
  apply StrProofs.strip_strip_nonempty. exact He.
Qed.

(** Extra X10: the [/extract] endpoint answers 400 exactly when the
    request is valid (the request model strips the prompt and rejects
    blank prompts and a [max_features] outside [1, 50], so the service's
    own checks pass) and the text of the feature cache key cannot be
    encoded ([UnicodeEncodeError], raised before the [try]); a 200 answer
    carries at most [max_features] features, ranked [1..N] in list order. *)
Theorem extract_endpoint_400_iff {Resp SR : Type} (E : collab Resp SR) (ce : bool) p m :
  (is_400 (extract_endpoint E ce p m) = true <->
   exists p', validate_extract_request p m = Some (p', m) /\ feature_cache_key E p' m = None) /\
  (forall fs, extract_endpoint E ce p m = Reply200 fs ->
     (List.length fs <= Z.to_nat m)%nat /\ ranked fs).
Proof.
  unfold extract_endpoint.
  destruct (validate_extract_request p m) as [[p' m']|] eqn:Hv.
  2: { split; [split; [intros H; discriminate H|intros [p' [H _]]; discriminate H]
              |intros fs H; discriminate H]. }
  destruct (validate_extract_ok _ _ _ _ Hv) as [_ [-> [Hp Hm]]].
  pose proof (value_error_iff E (fresh_cache ce) p' m) as Hve.
  assert (H1 : (m <? 1)%Z = false) by (apply Z.ltb_ge; lia).
  assert (H2 : (50 <? m)%Z = false) by (apply Z.ltb_ge; lia).
  rewrite Hp, H1, H2 in Hve. simpl orb in Hve.
  split; [split|].
  - intros H400. exists p'. split; [reflexivity|].
    destruct (fst (extract_features E (fresh_cache ce) p' m)) as [fs|[e|e|e]];
      simpl in H400, Hve; try discriminate H400.
    destruct (feature_cache_key E p' m); [discriminate Hve|reflexivity].
  - intros [p0 [Heq Hk]]. injection Heq as Heq. subst p0. rewrite Hk in Hve. simpl in Hve.
    destruct (fst (extract_features E (fresh_cache ce) p' m)) as [fs|[e|e|e]];
      simpl in Hve |- *; try discriminate Hve. reflexivity.
  - intros fs. destruct (fst (extract_features E (fresh_cache ce) p' m)) as [fs'|[e|e|e]] eqn:Hx;
      try discriminate.
    intros H. injection H as <-.
    apply (extract_ok_bounded E (fresh_cache ce) p' m fs'); [|exact Hx].
    intros k v _ Hh. rewrite fresh_cache_miss in Hh. discriminate.
Qed.

(** Extra X11: once a [/storyline] request is valid, its answer is 400
    exactly when one of the service's [ValueError]s is raised: the
    request has no features (missing or an empty list) and either the
    feature cache key of the extraction it then runs cannot be encoded or
    that extraction succeeds with no feature; or the features used (those
    of the request, or else the extracted ones) are not empty and the
    storyline cache key cannot be encoded. A failed extraction of another
    kind never gives 400. *)
Theorem storyline_endpoint_400 {Resp SR : Type} (E : collab Resp SR) (ce : bool)
    p features tone length audience p' :
  validate_storyline_request p tone length audience = Some p' ->
  is_400 (storyline_endpoint E ce p features tone length audience) = true <->
  ((features = None \/ features = Some []) /\ feature_cache_key E p' 10 = None) \/
  ((features = None \/ features = Some []) /\
   fst (extract_features E (fresh_cache ce) p' 10) = Ok []) \/
  (exists fs, fs <> [] /\
     (features = Some fs \/
      ((features = None \/ features = Some []) /\
       fst (extract_features E (fresh_cache ce) p' 10) = Ok fs)) /\
     story_cache_key E p' fs tone length audience = None).
Proof.
  intros Hv. destruct (validate_storyline_ok _ _ _ _ _ Hv) as [_ Hp].
  unfold storyline_endpoint. rewrite Hv.
  assert (Hgen : forall fs,
    is_400 (match fst (generate_storyline E (fresh_cache ce) p' fs tone length audience) with
            | Ok storyline => Reply200 storyline
            | Raise (ValueError msg) => HTTPError 400 msg
            | Raise _ => HTTPError 500 "Internal server error during storyline generation"
            end) = is_nil fs || is_none (story_cache_key E p' fs tone length audience)).
  { intros fs. pose proof (story_value_error_iff E (fresh_cache ce) p' fs tone length audience) as H.
    rewrite Hp in H. simpl orb in H.
    destruct (fst (generate_storyline E _ p' fs tone length audience)) as [x|[e|e|e]];
      simpl in H |- *; congruence. }
  assert (Hx : forall r : result (list feature), r = fst (extract_features E (fresh_cache ce) p' 10) ->
    is_400 (match bindR r (fun fs => fst (generate_storyline E (fresh_cache ce) p' fs tone length audience)) with
            | Ok storyline => Reply200 storyline
            | Raise (ValueError msg) => HTTPError 400 msg
            | Raise _ => HTTPError 500 "Internal server error during storyline generation"
            end) = true <->
    feature_cache_key E p' 10 = None \/ r = Ok [] \/
    (exists fs, fs <> [] /\ r = Ok fs /\ story_cache_key E p' fs tone length audience = None)).
  { intros r Hr. pose proof (value_error_iff E (fresh_cache ce) p' 10) as H.
    rewrite Hp, <- Hr in H. simpl in H.
    destruct r as [fs|[e|e|e]]; simpl bindR; simpl in H.
    - rewrite Hgen. destruct (feature_cache_key E p' 10); [|discriminate H].
      destruct fs as [|f fs]; simpl.
      + split; [intros _; right; left; reflexivity|intros _; reflexivity].
      + destruct (story_cache_key E p' (f :: fs) tone length audience) eqn:Hk; simpl.
        * split; [intros Hf; discriminate Hf|].
          intros [Hn|[Hn|[fs0 [_ [Heq Hk0]]]]]; try discriminate Hn.
          injection Heq as <-. rewrite Hk in Hk0. discriminate Hk0.
        * split; [|reflexivity]. intros _. right; right. exists (f :: fs).
          split; [discriminate|split; [reflexivity|exact Hk]].
    - destruct (feature_cache_key E p' 10); [discriminate H|].
      simpl. split; [intros _; left; reflexivity|reflexivity].
    - destruct (feature_cache_key E p' 10); [|discriminate H].
      simpl. split; [intros Hf; discriminate Hf|].
      intros [Hn|[Hn|[fs0 [_ [Heq _]]]]]; discriminate.
    - destruct (feature_cache_key E p' 10); [|discriminate H].
      simpl. split; [intros Hf; discriminate Hf|].
      intros [Hn|[Hn|[fs0 [_ [Heq _]]]]]; discriminate. }
  destruct features as [[|f fs]|].
  - rewrite (Hx _ eq_refl). split.
    + intros [H|[H|[fs0 [Hne [H Hk]]]]].
      * left. split; [right; reflexivity|exact H].
      * right; left. split; [right; reflexivity|exact H].
      * right; right. exists fs0. split; [exact Hne|split; [right; split; [right; reflexivity|exact H]|exact Hk]].
    + intros [[_ H]|[[_ H]|[fs0 [Hne [[H|[_ H]] Hk]]]]].
      * left. exact H.
      * right; left. exact H.
      * injection H as H. subst fs0. contradiction.
      * right; right. exists fs0. split; [exact Hne|split; [exact H|exact Hk]].
  - simpl bindR. rewrite Hgen. simpl is_nil. simpl orb. split.
    + intros H. right; right. exists (f :: fs).
      split; [discriminate|split; [left; reflexivity|]].
      destruct (story_cache_key E p' (f :: fs) tone length audience); [discriminate H|reflexivity].
    + intros [[[H|H] _]|[[[H|H] _]|[fs0 [_ [[H|[[H|H] _]] Hk]]]]]; try discriminate H.
      injection H as <-. rewrite Hk. reflexivity.
  - rewrite (Hx _ eq_refl). split.
    + intros [H|[H|[fs0 [Hne [H Hk]]]]].
      * left. split; [left; reflexivity|exact H].
      * right; left. split; [left; reflexivity|exact H].
      * right; right. exists fs0. split; [exact Hne|split; [right; split; [left; reflexivity|exact H]|exact Hk]].
    + intros [[_ H]|[[_ H]|[fs0 [Hne [[H|[_ H]] Hk]]]]].
      * left. exact H.
      * right; left. exact H.
      * discriminate H.
      * right; right. exists fs0. split; [exact Hne|split; [exact H|exact Hk]].
Qed.

Lemma storyline_endpoint_400_witness :
  is_400 (storyline_endpoint (surrogate_collab (JArr [])) true "Smart water bottle" None
            "friendly" "medium" None) = true <->
  ((@None (list feature) = None \/ @None (list feature) = Some []) /\
   feature_cache_key (surrogate_collab (JArr [])) "Smart water bottle" 10 = None) \/
  ((@None (list feature) = None \/ @None (list feature) = Some []) /\
   fst (extract_features (surrogate_collab (JArr [])) (fresh_cache true) "Smart water bottle" 10) = Ok []) \/
  (exists fs, fs <> [] /\
     (@None (list feature) = Some fs \/
      ((@None (list feature) = None \/ @None (list feature) = Some []) /\
       fst (extract_features (surrogate_collab (JArr [])) (fresh_cache true) "Smart water bottle" 10) = Ok fs)) /\
     story_cache_key (surrogate_collab (JArr [])) "Smart water bottle" fs "friendly" "medium" None = None).
Proof.
  apply (storyline_endpoint_400 (surrogate_collab (JArr [])) true "Smart water bottle" None
           "friendly" "medium" None "Smart water bottle").
  vm_compute. reflexivity.
Defined.

End ApiFacts.

(* ------------------------------------------------------------------ *)
(** ** Facts about the mock LLM client *)

Module LLMFacts.
Import Pipeline LLM.

Lemma lower_app (a b : string) : Py.lower (a ++ b) = (Py.lower a ++ Py.lower b)%string.
Proof. induction a as [|c a IH]; simpl; [reflexivity|now rewrite IH]. Qed.

Lemma prefix_app (n a b : string) :
  String.prefix n a = true -> String.prefix n (a ++ b) = true.
Proof.
  revert a. induction n as [|c n IH]; intros a H; [destruct (a ++ b)%string; reflexivity|].
  destruct a as [|d a]; [discriminate|]. simpl in H |- *.
  destruct (Ascii.ascii_dec c d); [apply IH; exact H|discriminate].
Qed.

Lemma contains_app_r (n a b : string) :
  contains n a = true -> contains n (a ++ b) = true.
Proof.
  induction a as [|c a IH]; intros H.
  - simpl in H. destruct n; [destruct b; reflexivity|discriminate].
  - simpl in H |- *. apply orb_true_iff in H as [H|H]; apply orb_true_iff.
    + left. apply (prefix_app n (String c a) b). exact H.
    + right. apply IH. exact H.
Qed.

Lemma contains_app_l (n a b : string) :
  contains n b = true -> contains n (a ++ b) = true.
Proof.
  induction a as [|c a IH]; intros H; simpl; [exact H|].
  apply orb_true_iff. right. apply IH. exact H.
Qed.

Lemma mock_last (sys user : string) :
  (contains "extract" (Py.lower user) || contains "features" (Py.lower user)) = true ->
  mock_response [("system", sys); ("user", user)] = Some MockFeatures.
Proof. intros H. unfold mock_response. simpl. rewrite H. reflexivity. Qed.

(** Extra X12: with the default settings (the placeholder API key) the
    client answers from its mock, and for both services' requests the
    mock picks the feature array: the feature prompt contains
    "extract", and the storyline prompt contains "Key Features", so the
    storyline generator is also handed the feature array, whatever the
    product, features, tone, length and audience. *)
Theorem mock_always_features
    (post : string -> list (string * string) -> http_outcome) :
  (forall p m,
     chat_completion default_settings post (feature_messages p m)
       None (Some (3 # 10)) (Some 2000%Z) None None None = Ok (MockReply MockFeatures)) /\
  (forall p features tone length audience,
     chat_completion default_settings post (storyline_messages p features tone length audience)
       None (Some (8 # 10)) (Some 3000%Z) None None None = Ok (MockReply MockFeatures)).
Proof.
  split.
  - intros p m. unfold chat_completion, feature_messages. cbv [default_settings opt_or LLM_TEMPERATURE
      LLM_MAX_TOKENS LLM_TOP_P LLM_PRESENCE_PENALTY LLM_FREQUENCY_PENALTY LLM_API_KEY].
    replace (request_valid _ _ _ _ _) with true by reflexivity.
    simpl negb. cbv iota.
    replace (Py.is_emptyb _ || _) with true by reflexivity. cbv iota.
    rewrite mock_last; [reflexivity|].
    unfold Templates.get_feature_extraction_prompt. rewrite lower_app.
    apply orb_true_iff. left. apply contains_app_r. vm_compute. reflexivity.
  - intros p features tone length audience. unfold chat_completion, storyline_messages.
    cbv [default_settings opt_or LLM_TEMPERATURE
      LLM_MAX_TOKENS LLM_TOP_P LLM_PRESENCE_PENALTY LLM_FREQUENCY_PENALTY LLM_API_KEY].
    replace (request_valid _ _ _ _ _) with true by reflexivity.
    simpl negb. cbv iota.
    replace (Py.is_emptyb _ || _) with true by reflexivity. cbv iota.
    rewrite mock_last; [reflexivity|].
    unfold Templates.get_storyline_generation_prompt.
    rewrite !lower_app. apply orb_true_iff. right.
    apply contains_app_l, contains_app_l, contains_app_r. vm_compute. reflexivity.
Qed.

End LLMFacts.

(* ------------------------------------------------------------------ *)
(** ** Facts about [_names_similar] and [_deduplicate_features] *)

Module DedupeFacts.
Import Feat.

Lemma In_set_inter (a b : list string) (x : string) :
  In x (set_inter a b) <-> In x a /\ In x b.
Proof. unfold set_inter. rewrite filter_In, ResolveFacts.mem_In. tauto. Qed.

Lemma same_elems_length (l1 l2 : list string) :
  NoDup l1 -> NoDup l2 -> (forall x, In x l1 <-> In x l2) ->
  List.length l1 = List.length l2.
Proof.
  intros H1 H2 H. apply Nat.le_antisymm; apply NoDup_incl_length; auto;
    intros x Hx; apply H; exact Hx.
Qed.

Lemma word_set_nodup (s : string) : NoDup (word_set s).
Proof. apply NoDup_nodup. Qed.

Lemma inter_length_comm (a b : list string) :
  NoDup a -> NoDup b -> List.length (set_inter a b) = List.length (set_inter b a).
Proof.
  intros Ha Hb. apply same_elems_length.
  - apply NoDup_filter. exact Ha.
  - apply NoDup_filter. exact Hb.
  - intros x. rewrite !In_set_inter. tauto.
Qed.

Lemma union_length_comm (a b : list string) :
  List.length (set_union a b) = List.length (set_union b a).
Proof.
  apply same_elems_length; try apply NoDup_nodup.
  intros x. unfold set_union. rewrite !nodup_In, !in_app_iff. tauto.
Qed.

Lemma is_nil_nodup (l : list string) : is_nil (nodup string_dec l) = is_nil l.
Proof.
  destruct l as [|x l]; [reflexivity|].
  destruct (nodup string_dec (x :: l)) eqn:E; [|reflexivity].
  exfalso. assert (H : In x (nodup string_dec (x :: l))) by (apply nodup_In; left; reflexivity).
  rewrite E in H. exact H.
Qed.

Lemma self_similarity (n : nat) : (0 < n)%nat -> (Z.of_nat n # Pos.of_nat n == 1)%Q.
Proof.
  intros Hn. unfold Qeq. simpl.
  rewrite Z.mul_1_r, <- positive_nat_Z, Nat2Pos.id by lia. reflexivity.
Qed.

(** Extra X13: the word-overlap test is symmetric, for any threshold; a
    name with no word (empty or only whitespace) is similar to no name;
    a name with at least one word is similar to itself for any threshold
    up to 1 (in particular the default 0.8). *)
Theorem names_similar_sym_refl (threshold : Q) (name1 name2 : string) :
  names_similar_t threshold name1 name2 = names_similar_t threshold name2 name1 /\
  (Py.split name1 = [] -> names_similar_t threshold name1 name2 = false) /\
  (Py.split name1 <> [] -> (threshold <= 1)%Q ->
   names_similar_t threshold name1 name1 = true).
Proof.
  split; [|split].
  - unfold names_similar_t. rewrite orb_comm.
    destruct (is_nil (word_set name2) || is_nil (word_set name1)); [reflexivity|].
    rewrite (inter_length_comm _ _ (word_set_nodup name1) (word_set_nodup name2)),
      union_length_comm. reflexivity.
  - intros H. unfold names_similar_t, word_set. rewrite H. reflexivity.
  - intros H Ht. unfold names_similar_t.
    assert (Hw : is_nil (word_set name1) = false)
      by (unfold word_set; rewrite is_nil_nodup; destruct (Py.split name1); [contradiction|reflexivity]).
    rewrite Hw. simpl orb. cbv iota.
    assert (Hi : List.length (set_inter (word_set name1) (word_set name1)) = List.length (word_set name1))
      by (apply same_elems_length; [apply NoDup_filter, word_set_nodup|apply word_set_nodup|
          intros x; rewrite In_set_inter; tauto]).
    assert (Hu : List.length (set_union (word_set name1) (word_set name1)) = List.length (word_set name1))
      by (apply same_elems_length; [apply NoDup_nodup|apply word_set_nodup|
          intros x; unfold set_union; rewrite nodup_In, in_app_iff; tauto]).
    rewrite Hi, Hu.
    assert (Hpos : (0 < List.length (word_set name1))%nat)
      by (destruct (word_set name1); [discriminate|simpl; lia]).
    apply Nat.ltb_lt in Hpos as Hlt. rewrite Hlt.
    apply Qle_bool_iff. rewrite self_similarity; [exact Ht|].
    apply Nat.ltb_lt. exact Hlt.
Qed.

Lemma is_space_lower (c : ascii) : Py.is_space (Py.lower_char c) = Py.is_space c.
Proof. destruct c as [[] [] [] [] [] [] [] []]; reflexivity. Qed.

Lemma all_space_lower (s : string) :
  Py.all_chars Py.is_space (Py.lower s) = Py.all_chars Py.is_space s.
Proof. induction s as [|c s IH]; simpl; [reflexivity|]. now rewrite is_space_lower, IH. Qed.

Lemma blank_never_similar (f : feature) (seen : list string) :
  Py.all_chars Py.is_space (f_name f) = true ->
  existsb (fun s => names_similar (normalized_name f) s) seen = false.
Proof.
  intros H. unfold normalized_name.
  rewrite <- all_space_lower in H. apply StrProofs.strip_empty_iff in H. rewrite H.
  induction seen as [|s seen IH]; [reflexivity|]. simpl. rewrite IH. reflexivity.
Qed.

(** Extra X14: deduplication never drops a feature whose name is empty
    or only whitespace: its normalized name has no word, so it is
    similar to no seen name. The blank-named features of the output are
    exactly those of the input, in the same order. *)
Theorem dedupe_keeps_blank_names (fs : list feature) :
  filter (fun f => Py.all_chars Py.is_space (f_name f)) (deduplicate_features fs) =
  filter (fun f => Py.all_chars Py.is_space (f_name f)) fs.
Proof.
  unfold deduplicate_features. generalize (@nil string) as seen.
  induction fs as [|f fs IH]; intros seen; [reflexivity|]. simpl.
  destruct (Py.all_chars Py.is_space (f_name f)) eqn:Hb.
  - rewrite (blank_never_similar f seen Hb). simpl. rewrite Hb, IH. reflexivity.
  - destruct (existsb _ seen); simpl; [|rewrite Hb]; apply IH.
Qed.

End DedupeFacts.

(* ------------------------------------------------------------------ *)
(** ** Facts about the JSON-block extraction of [generate_scenes] *)

Module ScenesFacts.
Import Scenes ScenesProofs.
Local Open Scope nat_scope.

Lemma find_char_split c s n :
  find_char c s = Some n ->
  exists P R, s = P ++ String c R /\ String.length P = n /\ has_char c P = false.
Proof.
  revert n. induction s as [|a s IH]; intros n H; simpl in H; [discriminate|].
  destruct (Ascii.eqb a c) eqn:E.
  - injection H as <-. apply Ascii.eqb_eq in E. subst.
    exists EmptyString, s. repeat split.
  - destruct (find_char c s) as [k|] eqn:Hk; [|discriminate]. injection H as <-.
    destruct (IH k eq_refl) as [P [R [-> [Hl Hh]]]].
    exists (String a P), R. simpl. rewrite E, Hh, Hl. repeat split.
Qed.

Lemma rfind_char_split c s n :
  rfind_char c s = Some n ->
  exists Q S, s = Q ++ String c S /\ String.length Q = n /\ has_char c S = false.
Proof.
  revert n. induction s as [|a s IH]; intros n H; simpl in H; [discriminate|].
  destruct (rfind_char c s) as [k|] eqn:Hk.
  - injection H as <-. destruct (IH k eq_refl) as [Q [S [-> [Hl Hh]]]].
    exists (String a Q), S. simpl. rewrite Hl. repeat split. exact Hh.
  - destruct (Ascii.eqb a c) eqn:E; [|discriminate]. injection H as <-.
    apply Ascii.eqb_eq in E. subst. exists EmptyString, s. repeat split.
    destruct (has_char c s) eqn:Hh; [|reflexivity].
    exfalso. clear IH. induction s as [|b s IHs]; simpl in Hh, Hk; [discriminate|].
    destruct (rfind_char c s); [discriminate|].
    destruct (Ascii.eqb b c); [discriminate|]. exact (IHs Hk Hh).
Qed.

Lemma app_eq_prefix (P x Q y : string) :
  P ++ x = Q ++ y -> String.length P <= String.length Q ->
  exists M, Q = P ++ M /\ x = M ++ y.
Proof.
  revert Q. induction P as [|a P IH]; intros Q H Hl.
  - exists Q. split; [reflexivity|exact H].
  - destruct Q as [|b Q]; simpl in Hl; [lia|]. simpl in H. injection H as <- H.
    destruct (IH Q H ltac:(lia)) as [M [-> Hx]]. exists M. split; [reflexivity|exact Hx].
Qed.

Lemma substring_full s : substring 0 (String.length s) s = s.
Proof. induction s as [|a s IH]; simpl; [reflexivity|]. rewrite IH. reflexivity. Qed.

Lemma extract_block_braced body :
  extract_block ("{" ++ body ++ "}") = ("{" ++ body ++ "}").
Proof.
  assert (Hs : ("{" ++ body ++ "}")%string = ("" ++ "{" ++ body ++ "}" ++ "")%string)
    by reflexivity.
  unfold extract_block. rewrite Hs.
  rewrite braced_find, braced_rfind by reflexivity. simpl String.length.
  assert (Hb : Nat.ltb 0 (0 + S (String.length body + 0)) = true) by (apply Nat.ltb_lt; lia).
  rewrite Hb.
  replace (0 + S (String.length body + 0) + 1 - 0)
    with (String.length ("" ++ "{" ++ body ++ "}" ++ "")) by (simpl; rewrite StrProofs.length_app_s; simpl; lia).
  apply substring_full.
Qed.

(** Extra X15: cutting the outermost [{...}] block out of the reply text
    is idempotent: when [generate_scenes] narrows the text, the result
    is a brace-delimited block that the same step leaves unchanged, and
    otherwise the text was already left as it is. *)
Theorem extract_block_idempotent (text : string) :
  extract_block (extract_block text) = extract_block text.
Proof.
  assert (Hid : extract_block text = text -> extract_block (extract_block text) = extract_block text)
    by (intros H; rewrite H; exact H).
  destruct (find_char "{"%char text) as [st|] eqn:Hf;
    [|apply Hid; unfold extract_block; rewrite Hf; reflexivity].
  destruct (rfind_char "}"%char text) as [en|] eqn:Hr;
    [|apply Hid; unfold extract_block; rewrite Hf, Hr; reflexivity].
  destruct (Nat.ltb st en) eqn:Hlt;
    [|apply Hid; unfold extract_block; rewrite Hf, Hr, Hlt; reflexivity].
  apply Nat.ltb_lt in Hlt.
  destruct (find_char_split _ _ _ Hf) as [P [R [Ht [HP HhP]]]].
  destruct (rfind_char_split _ _ _ Hr) as [Q [Sfx [Ht' [HQ HhS]]]].
  rewrite Ht in Ht'.
  destruct (app_eq_prefix P _ Q _ Ht' ltac:(lia)) as [M [HQM HM]].
  destruct M as [|a B].
  - rewrite HQM, StrProofs.app_nil_s in HQ. lia.
  - simpl in HM. injection HM as <- HR.
    assert (Htext : text = (P ++ (("{" ++ B ++ "}") ++ Sfx))%string).
    { rewrite Ht, HR. simpl. rewrite str_app_assoc. reflexivity. }
    assert (Hblock : extract_block text = ("{" ++ B ++ "}")%string).
    { rewrite Htext, (extract_block_wrap P Sfx ("{" ++ B ++ "}") 0 (S (String.length B + 0))).
      - apply extract_block_braced.
      - exact HhP.
      - exact HhS.
      - apply (braced_find "" B ""). reflexivity.
      - apply (braced_rfind "" B ""). reflexivity.
      - lia. }
    rewrite Hblock. apply extract_block_braced.
Qed.

End ScenesFacts.

(* ------------------------------------------------------------------ *)
(** ** The hero paragraph of the short tier *)

Module ShortFacts.
Import Py Story StrProofs.
Local Open Scope nat_scope.

Lemma join_snoc_app (l : list string) (x y : string) :
  (join " " (l ++ [x])%list ++ y)%string = join " " (l ++ [(x ++ y)%string])%list.
Proof.
  induction l as [|a l IH]; [reflexivity|].
  simpl app. destruct l as [|b l].
  - simpl. rewrite !app_assoc_s. reflexivity.
  - change (join " " (a :: (b :: l) ++ [x])) with (a ++ " " ++ join " " ((b :: l) ++ [x]))%string.
    change (join " " (a :: (b :: l) ++ [(x ++ y)%string]))
      with (a ++ " " ++ join " " ((b :: l) ++ [(x ++ y)%string]))%string.
    rewrite !app_assoc_s, <- IH. reflexivity.
Qed.

Lemma firstn_snoc_nth (n : nat) (l : list string) :
  n < List.length l -> firstn (S n) l = (firstn n l ++ [nth n l ""])%list.
Proof.
  revert l. induction n as [|n IH]; intros [|a l] H; simpl in H; try lia.
  - destruct l; reflexivity.
  - change (firstn (S (S n)) (a :: l)) with (a :: firstn (S n) l).
    rewrite IH by lia. reflexivity.
Qed.

Lemma word_dots (w : string) : word w -> word (w ++ "...").
Proof.
  intros [Hne Hc]. split.
  - destruct w; [contradiction|discriminate].
  - rewrite all_chars_app, Hc. reflexivity.
Qed.

Lemma split_truncated (ws : list string) :
  Forall word ws -> 100 < List.length ws ->
  split (join " " (firstn 100 ws) ++ "...") = (firstn 99 ws ++ [(nth 99 ws "" ++ "...")%string])%list.
Proof.
  intros Hw Hl. rewrite (firstn_snoc_nth 99) by lia. rewrite join_snoc_app.
  apply split_join_words. apply Forall_app. split.
  - apply OllamaFacts.Forall_firstn. exact Hw.
  - constructor; [|constructor]. apply word_dots.
    rewrite Forall_forall in Hw. apply Hw, nth_In. lia.
Qed.

Lemma short_hero_result (d d' : dict) (h : string) :
  dict_get_or d "hero_paragraph" (JStr "") = JStr h ->
  apply_length_constraints d "short" = Some d' ->
  exists h', dict_get_or d' "hero_paragraph" (JStr "") = JStr h' /\
    List.length (split h') <= 100 /\
    (List.length (split h) <= 100 -> h' = h) /\
    (100 < List.length (split h) ->
     split h' = (firstn 99 (split h) ++ [(nth 99 (split h) "" ++ "...")%string])%list).
Proof.
  intros Hh. unfold apply_length_constraints. simpl String.eqb. cbv iota.
  destruct (py_len (dict_get_or d "headline" (JStr ""))) as [l|]; [|discriminate].
  set (hv := dict_get_or d "headline" (JStr "")).
  assert (Hstep : forall d1, dict_get_or d1 "hero_paragraph" (JStr "") = JStr h ->
    match dict_get_or d1 "hero_paragraph" (JStr "") with
    | JStr hero =>
        let hero_words := split hero in
        if (100 <? List.length hero_words)%nat
        then Some (dict_set d1 "hero_paragraph"
                     (JStr (join " " (firstn 100 hero_words) ++ "...")))
        else Some d1
    | _ => None
    end = Some d' ->
    exists h', dict_get_or d' "hero_paragraph" (JStr "") = JStr h' /\
      List.length (split h') <= 100 /\
      (List.length (split h) <= 100 -> h' = h) /\
      (100 < List.length (split h) ->
       split h' = (firstn 99 (split h) ++ [(nth 99 (split h) "" ++ "...")%string])%list)).
  { intros d1 H1. rewrite H1. cbv zeta.
    destruct (100 <? List.length (split h)) eqn:Hlt; intros E;
      pose proof (f_equal (fun o => match o with Some x => x | None => d1 end) E) as E';
      cbv beta iota in E'; subst d'.
    - apply Nat.ltb_lt in Hlt.
      eexists. unfold dict_get_or. rewrite dict_get_set_same. split; [reflexivity|].
      rewrite (split_truncated _ (split_words h) Hlt).
      split; [|split; [lia|intros _; reflexivity]].
      rewrite length_app, length_firstn. cbn [List.length]. lia.
    - apply Nat.ltb_ge in Hlt. exists h. split; [exact H1|].
      split; [exact Hlt|]. split; [reflexivity|lia]. }
  destruct (60 <? l)%nat.
  - destruct hv as [| | | |s|] eqn:Ehv; try discriminate.
    apply Hstep. unfold dict_get_or. rewrite dict_get_set_other by discriminate. exact Hh.
  - apply Hstep. exact Hh.
Qed.

(** Extra X16: in the short tier, a successful [_apply_length_constraints]
    leaves a hero paragraph of at most 100 words: one of at most 100
    words is kept as it is, a longer one becomes its first 100 words
    with "..." glued to the 100th (so the result still counts 100
    words, not 101). *)
Theorem short_hero_words (d d' : dict) (h : string) :
  dict_get_or d "hero_paragraph" (JStr "") = JStr h ->
  apply_length_constraints d "short" = Some d' ->
  exists h', dict_get_or d' "hero_paragraph" (JStr "") = JStr h' /\
    List.length (split h') <= 100 /\
    (List.length (split h) <= 100 -> h' = h) /\
    (100 < List.length (split h) ->
     split h' = (firstn 99 (split h) ++ [(nth 99 (split h) "" ++ "...")%string])%list).
Proof. exact (short_hero_result d d' h). Qed.

Lemma short_hero_words_witness :
  exists h', dict_get_or [("hero_paragraph", JStr "Stay hydrated all day.")] "hero_paragraph" (JStr "")
               = JStr h' /\
    List.length (split h') <= 100 /\
    (List.length (split "Stay hydrated all day.") <= 100 -> h' = "Stay hydrated all day.") /\
    (100 < List.length (split "Stay hydrated all day.") ->
     split h' = (firstn 99 (split "Stay hydrated all day.") ++
                [(nth 99 (split "Stay hydrated all day.") "" ++ "...")%string])%list).
Proof.
  apply (short_hero_words [("hero_paragraph", JStr "Stay hydrated all day.")]
           [("hero_paragraph", JStr "Stay hydrated all day.")] "Stay hydrated all day.").
  - reflexivity.
  - vm_compute. reflexivity.
Defined.

End ShortFacts.

(* ------------------------------------------------------------------ *)
(** ** Running [_post_process_storyline] on its own output *)

Module StoryFixFacts.
Import Py Story StoryProofs.
Local Open Scope nat_scope.

Lemma dict_set_get_same (d : dict) (k : string) (v : json) :
  dict_get d k = Some v -> dict_set d k v = d.
Proof.
  induction d as [|[k0 v0] d IH]; simpl; [discriminate|].
  destruct (String.eqb k0 k); [intros H; injection H as ->; reflexivity|].
  intros H. rewrite IH by exact H. reflexivity.
Qed.

Lemma fold_defaults_id (ds : list (string * json)) (d : dict) :
  (forall k, In k (map fst ds) -> exists v, dict_get d k = Some v /\ truthy v = true) ->
  fold_left apply_default ds d = d.
Proof.
  induction ds as [|[k dv] ds IH]; intros H; [reflexivity|]. simpl.
  destruct (H k (or_introl eq_refl)) as [v [Hv Ht]].
  rewrite Hv, Ht. apply IH. intros k' Hk'. apply H. right. exact Hk'.
Qed.

Lemma apply_defaults_id (d : dict) : all_truthy d -> apply_defaults d = d.
Proof. apply fold_defaults_id. Qed.

Lemma apply_defaults_truthy (d : dict) : all_truthy (apply_defaults d).
Proof.
  intros k Hk. apply in_map_iff in Hk as [[k' dv] [Hk Hin]]. simpl in Hk. subst k'.
  rewrite (get_apply_defaults d k dv Hin). eexists. split; [reflexivity|].
  assert (Hdv : truthy dv = true).
  { assert (Hall : forallb (fun kd => truthy (snd kd)) defaults = true) by reflexivity.
    rewrite forallb_forall in Hall. exact (Hall _ Hin). }
  unfold defaulted. destruct (dict_get d k) as [v|]; [|exact Hdv].
  destruct (truthy v) eqn:Hv; [exact Hv|exact Hdv].
Qed.

Lemma all_truthy_set (d : dict) (k : string) (v : json) :
  truthy v = true -> all_truthy d -> all_truthy (dict_set d k v).
Proof.
  intros Hv Hd k' Hk'. rewrite dict_get_set.
  destruct (String.eqb k k'); [eauto|apply Hd, Hk'].
Qed.

Lemma truthy_dots (s : string) : truthy (JStr (s ++ "...")) = true.
Proof. destruct s; reflexivity. Qed.

Lemma length_constraints_truthy (d d' : dict) (length : string) :
  apply_length_constraints d length = Some d' -> all_truthy d -> all_truthy d'.
Proof.
  unfold apply_length_constraints.
  destruct (String.eqb length "short").
  - destruct (py_len _) as [l|]; [|discriminate].
    intros E Hd.
    assert (Hd1 : forall d1, (if (60 <? l)%nat then
              match dict_get_or d "headline" (JStr "") with
              | JStr s => Some (dict_set d "headline" (JStr (Py.take 60 s ++ "...")))
              | _ => None
              end else Some d) = Some d1 -> all_truthy d1).
    { intros d1. destruct (60 <? l)%nat.
      - destruct (dict_get_or d "headline" (JStr "")); try discriminate.
        intros H. injection H as <-. apply all_truthy_set; [apply truthy_dots|exact Hd].
      - intros H. injection H as <-. exact Hd. }
    revert E. destruct (if (60 <? l)%nat then _ else _) as [d1|] eqn:E1; [|discriminate].
    specialize (Hd1 d1 eq_refl).
    destruct (dict_get_or d1 "hero_paragraph" (JStr "")); try discriminate.
    destruct (100 <? _)%nat; intros H; injection H as <-; [|exact Hd1].
    apply all_truthy_set; [apply truthy_dots|exact Hd1].
  - destruct (String.eqb length "long").
    + destruct (dict_get_or d "hero_paragraph" (JStr "")); try discriminate.
      intros H Hd. injection H as <-. exact Hd.
    + intros H Hd. injection H as <-. exact Hd.
Qed.

Lemma pad_list_truthy (d d' : dict) (k : string) (n : nat) (filler : string) :
  pad_list d k n filler = Some d' -> all_truthy d -> all_truthy d'.
Proof.
  unfold pad_list.
  destruct (dict_get d k) as [v|]; [|discriminate].
  destruct (py_len v) as [l|] eqn:Hl; [|discriminate].
  destruct (l <? n)%nat eqn:Hlt; [|intros H Hd; injection H as <-; exact Hd].
  destruct v; try discriminate. intros H Hd. injection H as <-.
  apply all_truthy_set; [|exact Hd].
  apply Nat.ltb_lt in Hlt.
  destruct xs; simpl; [|reflexivity].
  destruct (n - l) eqn:Hnl; [lia|reflexivity].
Qed.

Lemma pad_list_other (d d' : dict) (k k' : string) (n : nat) (filler : string) :
  pad_list d k n filler = Some d' -> k <> k' -> dict_get d' k' = dict_get d k'.
Proof.
  unfold pad_list.
  destruct (dict_get d k) as [v|]; [|discriminate].
  destruct (py_len v) as [l|]; [|discriminate].
  destruct (l <? n)%nat; [|intros H _; injection H as <-; reflexivity].
  destruct v; try discriminate. intros H Hne. injection H as <-.
  apply dict_get_set_other. exact Hne.
Qed.

Lemma pad_list_fixed (d d' e : dict) (k : string) (n : nat) (filler : string) :
  pad_list d k n filler = Some d' -> dict_get e k = dict_get d' k ->
  pad_list e k n filler = Some e.
Proof.
  intros H He. unfold pad_list in *. rewrite He.
  destruct (dict_get d k) as [v|] eqn:Hv; [|discriminate].
  destruct (py_len v) as [l|] eqn:Hl; [|discriminate].
  destruct (l <? n)%nat eqn:Hlt.
  - destruct v; try discriminate. injection H as <-.
    rewrite dict_get_set_same. simpl. rewrite length_app, repeat_length.
    simpl in Hl. injection Hl as <-. apply Nat.ltb_lt in Hlt.
    replace (List.length xs + (n - List.length xs) <? n)%nat with false
      by (symmetry; apply Nat.ltb_ge; lia).
    reflexivity.
  - injection H as <-. rewrite Hv, Hl, Hlt. reflexivity.
Qed.

Lemma substring_prefix_length (n : nat) (s : string) :
  n <= String.length s -> String.length (substring 0 n s) = n.
Proof.
  revert s. induction n as [|n IH]; intros [|c s] H; simpl in H |- *; try lia; try reflexivity.
  rewrite IH by lia. reflexivity.
Qed.

Lemma take_take_dots (s : string) :
  60 < String.length s -> take 60 (take 60 s ++ "...") = take 60 s.
Proof.
  intros Hs. unfold take.
  assert (Hl : String.length (substring 0 60 s) = 60) by (apply substring_prefix_length; lia).
  rewrite ScenesProofs.substring_app_r by lia.
  rewrite <- Hl at 1. apply ScenesFacts.substring_full.
Qed.

Lemma length_dots (s : string) :
  60 < String.length s -> String.length (take 60 s ++ "...") = 63.
Proof.
  intros Hs. rewrite StrProofs.length_app_s. unfold take.
  rewrite substring_prefix_length by lia. reflexivity.
Qed.

Lemma length_constraints_fixed (d d1 e : dict) (length : string) :
  apply_length_constraints d length = Some d1 ->
  dict_get e "headline" = dict_get d1 "headline" ->
  dict_get e "hero_paragraph" = dict_get d1 "hero_paragraph" ->
  apply_length_constraints e length = Some e.
Proof.
  intros H Hhe Hhr. unfold apply_length_constraints in *.
  destruct (String.eqb length "short") eqn:Es.
  - apply String.eqb_eq in Es. subst length.
    assert (Hhero : exists h', dict_get_or d1 "hero_paragraph" (JStr "") = JStr h' /\
              List.length (split h') <= 100).
    { destruct (dict_get_or d "hero_paragraph" (JStr "")) as [| | |h| |] eqn:Eh;
        try (exfalso; revert H;
             destruct (py_len (dict_get_or d "headline" (JStr ""))) as [l|]; [|discriminate];
             destruct (60 <? l)%nat;
             [destruct (dict_get_or d "headline" (JStr "")); try discriminate;
              unfold dict_get_or at 1; rewrite dict_get_set_other by discriminate;
              unfold dict_get_or in Eh; rewrite Eh; discriminate
             |rewrite Eh; discriminate]).
      destruct (ShortFacts.short_hero_result d d1 h Eh H) as [h' [H1 [H2 _]]].
      exists h'. split; [exact H1|exact H2]. }
    destruct Hhero as [h' [Hh1 Hw]].
    assert (Hhead : (exists l, py_len (dict_get_or e "headline" (JStr "")) = Some l /\ l <= 60) \/
              exists s, 60 < String.length s /\
                dict_get_or e "headline" (JStr "") = JStr (take 60 s ++ "...")).
    { destruct (py_len (dict_get_or d "headline" (JStr ""))) as [l|] eqn:Epl; [|discriminate].
      destruct (60 <? l)%nat eqn:E60.
      - right. destruct (dict_get_or d "headline" (JStr "")) as [| | |s| |] eqn:Ehd;
          try discriminate.
        exists s. split; [simpl in Epl; injection Epl as <-; apply Nat.ltb_lt; exact E60|].
        destruct (dict_get_or (dict_set d "headline" (JStr (take 60 s ++ "..."))) "hero_paragraph" (JStr ""));
          try discriminate.
        unfold dict_get_or at 1. rewrite Hhe.
        destruct (100 <? _)%nat; injection H as <-.
        + rewrite dict_get_set_other by discriminate. rewrite dict_get_set_same. reflexivity.
        + rewrite dict_get_set_same. reflexivity.
      - left. exists l. split; [|apply Nat.ltb_ge; exact E60].
        rewrite <- Epl. f_equal.
        destruct (dict_get_or d "hero_paragraph" (JStr "")); try discriminate.
        unfold dict_get_or at 1. rewrite Hhe.
        destruct (100 <? _)%nat; injection H as <-; [|reflexivity].
        rewrite dict_get_set_other by discriminate. reflexivity. }
    assert (Hhero_e : dict_get_or e "hero_paragraph" (JStr "") = JStr h')
      by (unfold dict_get_or; rewrite Hhr; exact Hh1).
    assert (Hfin : forall e1, dict_get_or e1 "hero_paragraph" (JStr "") = JStr h' ->
      match dict_get_or e1 "hero_paragraph" (JStr "") with
      | JStr hero =>
          if (100 <? List.length (split hero))%nat
          then Some (dict_set e1 "hero_paragraph"
                       (JStr (join " " (firstn 100 (split hero)) ++ "...")))
          else Some e1
      | _ => None
      end = Some e1).
    { intros e1 He1. rewrite He1.
      replace (100 <? List.length (split h'))%nat with false by (symmetry; apply Nat.ltb_ge; exact Hw).
      reflexivity. }
    destruct Hhead as [[l [Hl Hl60]]|[s [Hs Hdots]]].
    + rewrite Hl.
      replace (60 <? l)%nat with false by (symmetry; apply Nat.ltb_ge; exact Hl60).
      apply Hfin. exact Hhero_e.
    + rewrite Hdots. simpl py_len. rewrite length_dots by exact Hs.
      replace (60 <? 63)%nat with true by reflexivity.
      rewrite take_take_dots by exact Hs.
      assert (Hg : dict_get e "headline" = Some (JStr (take 60 s ++ "...")%string)).
      { unfold dict_get_or in Hdots. destruct (dict_get e "headline") as [v|].
        - rewrite Hdots. reflexivity.
        - exfalso. unfold take in Hdots. destruct (substring 0 60 s); discriminate Hdots. }
      rewrite (dict_set_get_same _ _ _ Hg).
      apply Hfin. exact Hhero_e.
  - destruct (String.eqb length "long").
    + unfold dict_get_or in *. rewrite Hhr.
      destruct (dict_get d "hero_paragraph") as [v|] eqn:Ev.
      * destruct v; try discriminate. injection H as <-. rewrite Ev. reflexivity.
      * injection H as <-. rewrite Ev. reflexivity.
    + reflexivity.
Qed.

(** Extra X17: post-processing is stable: running
    [_post_process_storyline] again, with the same tone and length, on a
    package it produced returns that package unchanged (every field is
    already truthy, a truncated headline is cut to the same text, the
    hero paragraph has at most 100 words, and every list is long
    enough). *)
Theorem post_process_stable (d d' : dict) (tone length : string) :
  post_process_storyline d tone length = Some d' ->
  post_process_storyline d' tone length = Some d'.
Proof.
  unfold post_process_storyline, bind.
  destruct (apply_length_constraints (apply_defaults d) length) as [d1|] eqn:E1; [|discriminate].
  destruct (pad_list d1 "bulleted_features" 3 "Additional benefit") as [d2|] eqn:E2; [|discriminate].
  destruct (pad_list d2 "use_cases" 2 "Additional use case") as [d3|] eqn:E3; [|discriminate].
  destruct (pad_list d3 "ctas" 2 "Take Action") as [d4|] eqn:E4; [|discriminate].
  intros E5.
  assert (Ht : all_truthy d').
  { apply (pad_list_truthy _ _ _ _ _ E5), (pad_list_truthy _ _ _ _ _ E4),
      (pad_list_truthy _ _ _ _ _ E3), (pad_list_truthy _ _ _ _ _ E2),
      (length_constraints_truthy _ _ _ E1), apply_defaults_truthy. }
  rewrite (apply_defaults_id d' Ht).
  assert (Hkeep : forall k, k <> "bulleted_features" -> k <> "use_cases" -> k <> "ctas" ->
            k <> "social_posts" -> dict_get d' k = dict_get d1 k).
  { intros k H1 H2 H3 H4.
    rewrite (pad_list_other _ _ _ _ _ _ E5) by congruence.
    rewrite (pad_list_other _ _ _ _ _ _ E4) by congruence.
    rewrite (pad_list_other _ _ _ _ _ _ E3) by congruence.
    rewrite (pad_list_other _ _ _ _ _ _ E2) by congruence.
    reflexivity. }
  rewrite (length_constraints_fixed _ _ d' _ E1)
    by (apply Hkeep; discriminate).
  rewrite (pad_list_fixed d1 d2 d') by
    (exact E2 || (rewrite (pad_list_other _ _ _ _ _ _ E5), (pad_list_other _ _ _ _ _ _ E4),
                   (pad_list_other _ _ _ _ _ _ E3) by discriminate; reflexivity)).
  rewrite (pad_list_fixed d2 d3 d') by
    (exact E3 || (rewrite (pad_list_other _ _ _ _ _ _ E5), (pad_list_other _ _ _ _ _ _ E4)
                   by discriminate; reflexivity)).
  rewrite (pad_list_fixed d3 d4 d') by
    (exact E4 || (rewrite (pad_list_other _ _ _ _ _ _ E5) by discriminate; reflexivity)).
  apply (pad_list_fixed d4 d' d' _ _ _ E5). reflexivity.
Qed.

Lemma post_process_stable_witness :
  post_process_storyline
    (match post_process_storyline stable_demo_input "friendly" "short" with
     | Some x => x | None => [] end) "friendly" "short" =
  Some (match post_process_storyline stable_demo_input "friendly" "short" with
        | Some x => x | None => [] end).
Proof.
  apply (post_process_stable stable_demo_input). vm_compute. reflexivity.
Defined.

End StoryFixFacts.
